(** * iot_sender: a shallow embedding of the sensor simulator

    The development follows [src/iot_sender.py].  Part I translates the
    script: the numeric helpers, the naive-datetime arithmetic the loop
    relies on, the start-up code that builds [runtime], the hourly drift,
    and one iteration of [device_loop].  Part II states and proves the
    properties of that code.

    Conventions of the embedding.
    - Python floats are read as exact rationals ([Q]); rounding error, NaN
      and infinities are outside the model.
    - The random module is an oracle: every call of [random.uniform] is
      given the underlying [random()] draw, every call of [random.gauss]
      the standard normal deviate it scales.
    - [datetime.now()], the result of the astral library and the outcome
      of the two output operations are inputs of one loop iteration.
    - A dictionary is a [gmap]; a statement that may raise returns a
      [result]. *)

From Stdlib Require Import ZArith QArith Qround Qminmax Lqa Lia.
From stdpp Require Import base option strings gmap.

(* ===================================================================== *)
(** * Part I.  The program                                                *)
(* ===================================================================== *)

(** ** Exceptions *)

Inductive exn : Type :=
  | KeyError (k : string)
  | ValueError
  | TypeError
  | OverflowError.

Inductive result (A : Type) : Type :=
  | Ok (a : A)
  | Raise (e : exn).
Arguments Ok {A} a.
Arguments Raise {A} e.

#[global] Instance result_ret : MRet result := λ A a, Ok a.
#[global] Instance result_bind : MBind result :=
  λ A B f m, match m with Ok a => f a | Raise e => Raise e end.

(** [m[k]] on a dictionary whose keys are strings. *)
Definition getitem {V : Type} (m : gmap string V) (k : string) : result V :=
  match m !! k with
  | Some v => Ok v
  | None => Raise (KeyError k)
  end.

(** ** Numeric helpers *)

Module Num.
Local Open Scope Q_scope.

(** [max(lo, min(hi, v))]: Python's [min] and [max] keep their first
    argument unless a later one is strictly smaller (resp. larger), which
    is what [Qmin] and [Qmax] do. *)
Definition clamp (v lo hi : Q) : Q := Qmax lo (Qmin hi v).

(** [random.uniform(a, b)] is [a + (b - a) * random()]. *)
Definition uniform (a b r : Q) : Q := a + (b - a) * r.

(** [random.gauss(mu, sigma)] is [mu + z * sigma] for a standard normal
    deviate [z]. *)
Definition gauss (mu sigma z : Q) : Q := mu + z * sigma.

(** A draw of [random()] lies in the half-open unit interval. *)
Definition unit_draw (r : Q) : Prop := 0 <= r /\ r < 1.

Definition round_half_even (q : Q) : Z :=
  let f := Qfloor q in
  match Qcompare (q - inject_Z f) (1 # 2) with
  | Lt => f
  | Gt => (f + 1)%Z
  | Eq => if Z.even f then f else (f + 1)%Z
  end.

(** [round(x, ndigits)] for a non-negative number of digits. *)
Definition round (x : Q) (ndigits : nat) : Q :=
  let p := inject_Z (10 ^ Z.of_nat ndigits) in
  inject_Z (round_half_even (x * p)) / p.

End Num.

(** ** Naive datetimes *)

Module Clock.

(** A naive [datetime].  The calendar date is kept as its proleptic
    ordinal ([date.toordinal()]), which orders dates as the
    (year, month, day) triple does. *)
Record datetime : Type := mkdt {
  ordinal : Z;
  hour : Z;
  minute : Z;
  second : Z;
  microsecond : Z
}.

Definition MAXORDINAL : Z := 3652059.

Definition valid (d : datetime) : Prop :=
  (1 ≤ ordinal d ≤ MAXORDINAL ∧ 0 ≤ hour d < 24 ∧ 0 ≤ minute d < 60
   ∧ 0 ≤ second d < 60 ∧ 0 ≤ microsecond d < 1000000)%Z.

(** Comparison of two naive datetimes is the lexicographic comparison of
    their fields. *)
Definition lex (c1 c2 : comparison) : comparison :=
  match c1 with Eq => c2 | _ => c1 end.

Definition compare (a b : datetime) : comparison :=
  lex (ordinal a ?= ordinal b)%Z
   (lex (hour a ?= hour b)%Z
     (lex (minute a ?= minute b)%Z
       (lex (second a ?= second b)%Z
            (microsecond a ?= microsecond b)%Z))).

(** [a < b] and [a >= b] *)
Definition lt (a b : datetime) : bool :=
  match compare a b with Lt => true | _ => false end.
Definition ge (a b : datetime) : bool :=
  match compare a b with Lt => false | _ => true end.

(** Whether a Python integer converts to a C [int]. *)
Definition fits_int (z : Z) : bool :=
  bool_decide (-2147483648 ≤ z ≤ 2147483647)%Z.

(** [d.replace(hour=h, minute=m, second=0, microsecond=0)]: the
    arguments are first converted to C ints, which raises
    [OverflowError] for a value that does not fit; the range of each
    field is checked after that. *)
Definition replace (d : datetime) (h m : Z) : result datetime :=
  if fits_int h && fits_int m then
    if bool_decide (0 ≤ h < 24)%Z then
      if bool_decide (0 ≤ m < 60)%Z then
        Ok {| ordinal := ordinal d; hour := h; minute := m;
              second := 0; microsecond := 0 |}
      else Raise ValueError
    else Raise ValueError
  else Raise OverflowError.

(** [d + timedelta(days=n)] *)
Definition add_days (d : datetime) (n : Z) : result datetime :=
  let o := (ordinal d + n)%Z in
  if bool_decide (0 < o ≤ MAXORDINAL)%Z then
    Ok {| ordinal := o; hour := hour d; minute := minute d;
          second := second d; microsecond := microsecond d |}
  else Raise OverflowError.

(** The position of a datetime on the time line, in microseconds. *)
Definition instant (d : datetime) : Z :=
  ((((ordinal d * 24 + hour d) * 60 + minute d) * 60 + second d) * 1000000
   + microsecond d)%Z.

(** Midnight that begins the day of ordinal [o]. *)
Definition midnight (o : Z) : Z := (o * 86400000000)%Z.

End Clock.

(** ** Configuration files and start-up *)

Module Registry.

(** What [json.load] returns. *)
#[warnings="-register-all"]
Inductive json : Type :=
  | JNull
  | JBool (b : bool)
  | JNum (q : Q)
  | JStr (s : string)
  | JArr (l : list json)
  | JObj (l : list (string * json)).

(** Truth value of a loaded JSON value, as [not x] sees it. *)
Definition truthy (j : json) : bool :=
  match j with
  | JNull => false
  | JBool b => b
  | JNum q => negb (Qeq_bool q 0)
  | JStr s => negb (String.eqb s "")
  | JArr l => match l with [] => false | _ => true end
  | JObj l => match l with [] => false | _ => true end
  end.

(** One element of [device_entries]. *)
Record device_entry : Type := {
  deviceId : string;
  connectionString : json;
  index : nat
}.

(** One value of [runtime]. *)
Record device_rt : Type := {
  base : gmap string Q;
  state : gmap string Q;
  lat : Q;
  lon : Q;
  activity_end : Z
}.

Definition METRICS : list string :=
  ["temperature"; "humidity"; "co2"; "no2"; "pm25"; "pm10"].

(** The keys the start-up loop reads with [r[k]]. *)
Definition REQUIRED : list string := METRICS ++ ["lat"; "lon"].

Section Startup.

(** The numeric literal parsers behind [float(str)] and [int(str)]. *)
Variable parse_float : string → option Q.
Variable parse_int : string → option Z.

(** [float(x)].  A number too large for a double, on which Python
    raises [OverflowError] or returns an infinity, is outside the model. *)
Definition float (j : json) : result Q :=
  match j with
  | JNum q => Ok q
  | JBool b => Ok (if b then 1%Q else 0%Q)
  | JStr s => match parse_float s with Some q => Ok q | None => Raise ValueError end
  | _ => Raise TypeError
  end.

(** [int(x)]: a number is truncated towards zero. *)
Definition int (j : json) : result Z :=
  match j with
  | JNum q => Ok (Z.quot (Qnum q) (Zpos (Qden q)))
  | JBool b => Ok (if b then 1%Z else 0%Z)
  | JStr s => match parse_int s with Some z => Ok z | None => Raise ValueError end
  | _ => Raise TypeError
  end.

(** [{k: float(r[k]) for k in keys}] *)
Fixpoint float_items (r : gmap string json) (keys : list string)
  : result (gmap string Q) :=
  match keys with
  | [] => Ok ∅
  | k :: ks =>
      j ← getitem r k;
      v ← float j;
      m ← float_items r ks;
      Ok (<[k := v]> m)
  end.

(** The body of the loop that fills [runtime], for the region entry [r]:
    the six baselines, then [lat], [lon] and [activity_end]. *)
Definition runtime_entry (r : gmap string json) : result device_rt :=
  b ← float_items r METRICS;
  jlat ← getitem r "lat";
  vlat ← float jlat;
  jlon ← getitem r "lon";
  vlon ← float jlon;
  ae ← int (default (JNum 22) (r !! "activity_end"));
  Ok {| base := b; state := b; lat := vlat; lon := vlon; activity_end := ae |}.

(** The loop over [devices] that builds [device_entries]. *)
Fixpoint load_device_entries (regions : gmap string (gmap string json))
    (idx : nat) (devices : list (gmap string json)) : result (list device_entry) :=
  match devices with
  | [] => Ok []
  | d :: ds =>
      let did := default JNull (d !! "deviceId") in
      let conn := default JNull (d !! "connectionString") in
      if negb (truthy did) || negb (truthy conn) then Raise ValueError
      else
        match did with
        | JStr s =>
            match regions !! s with
            | None => Raise ValueError
            | Some _ =>
                rest ← load_device_entries regions (S idx) ds;
                Ok ({| deviceId := s; connectionString := conn; index := idx |}
                      :: rest)
            end
        | JArr _ | JObj _ => Raise TypeError
        | _ => Raise ValueError
        end
  end.

(** The loop over [device_entries] that builds [runtime]. *)
Fixpoint load_runtime (regions : gmap string (gmap string json))
    (entries : list device_entry) (runtime : gmap string device_rt)
  : result (gmap string device_rt) :=
  match entries with
  | [] => Ok runtime
  | entry :: rest =>
      let did := deviceId entry in
      r ← getitem regions did;
      rt ← runtime_entry r;
      load_runtime regions rest (<[did := rt]> runtime)
  end.

End Startup.

(** [{did: None for did in runtime.keys()}] *)
Definition initial_last_drift_hour (runtime : gmap string device_rt)
  : gmap string (option Z) :=
  (λ _, None) <$> runtime.

End Registry.

(** ** The simulation *)

Module Sim.
Import Registry.
Local Open Scope Q_scope.

Definition ACTIVITY_START_HOUR : Z := 6.
Definition ACTIVITY_START_MIN : Z := 30.
Definition LOG_MODE : bool := true.

(** The four comparisons made at the top of one loop iteration. *)
Record flags : Type := {
  is_after_sunset : bool;
  is_before_sunrise : bool;
  is_after_activity_end : bool;
  is_effective_day : bool
}.

(** The [payload] dictionary.  A reading is kept as the number that the
    f-string prints in front of its unit. *)
Record payload : Type := {
  p_deviceId : string;
  p_region : json;
  p_timestamp : Clock.datetime;
  p_temperature : Q;
  p_humidity : Q;
  p_co2 : Q;
  p_no2 : Q;
  p_pm25 : Q;
  p_pm10 : Q;
  p_period : string;
  p_sunset : Clock.datetime;
  p_sunrise : Clock.datetime;
  p_activity_end_hour : Z
}.

(** The lines the loop prints. *)
Inductive event : Type :=
  | DriftApplied (did : string) (day : bool) (at_ : Clock.datetime)
  | SentHub (did : string) (p : payload)
  | SentLocal (did : string) (p : payload)
  | SendFailed (did : string)
  | LogFailed.

(** The module-level dictionaries, the messages the hub has accepted and
    the daily log files (keyed by the ordinal of their date). *)
Record world : Type := {
  regions : gmap string (gmap string json);
  runtime : gmap string device_rt;
  last_drift_hour : gmap string (option Z);
  hub : list payload;
  log_dir : gmap Z (list payload)
}.

(** What one loop iteration takes from outside: the clock, the sun times
    already converted to naive local time, the random draws (those of the
    drift and the Gaussian deviates are keyed by metric), and whether the
    two output operations raise. *)
Record tick_env : Type := {
  now : Clock.datetime;
  sunrise_local_naive : Clock.datetime;
  sunset_local_naive : Clock.datetime;
  drift_draw : string → Q;
  temp_draw : Q;
  hum_draw : Q;
  mult_draw : Q;
  no2_draw : Q;
  noise : string → Q;
  send_raises : bool;
  log_now : Clock.datetime;
  log_raises : bool
}.

Definition set_base (b : gmap string Q) (d : device_rt) : device_rt :=
  {| base := b; state := state d; lat := lat d; lon := lon d;
     activity_end := activity_end d |}.

Definition set_state (s : gmap string Q) (d : device_rt) : device_rt :=
  {| base := base d; state := s; lat := lat d; lon := lon d;
     activity_end := activity_end d |}.

Definition set_runtime (rt : gmap string device_rt) (w : world) : world :=
  {| regions := regions w; runtime := rt; last_drift_hour := last_drift_hour w;
     hub := hub w; log_dir := log_dir w |}.

Definition set_last_drift_hour (l : gmap string (option Z)) (w : world) : world :=
  {| regions := regions w; runtime := runtime w; last_drift_hour := l;
     hub := hub w; log_dir := log_dir w |}.

Definition set_hub (h : list payload) (w : world) : world :=
  {| regions := regions w; runtime := runtime w;
     last_drift_hour := last_drift_hour w; hub := h; log_dir := log_dir w |}.

Definition set_log_dir (l : gmap Z (list payload)) (w : world) : world :=
  {| regions := regions w; runtime := runtime w;
     last_drift_hour := last_drift_hour w; hub := hub w; log_dir := l |}.

(** *** Regime classification (lines 157-166) *)

Definition regime (now sunrise sunset : Clock.datetime) (ae : Z) : result flags :=
  activity_start ← Clock.replace now ACTIVITY_START_HOUR ACTIVITY_START_MIN;
  activity_end_dt ← Clock.replace now ae 0;
  activity_end_dt ← (if (ae =? 0)%Z then Clock.add_days activity_end_dt 1
                     else Ok activity_end_dt);
  Ok {| is_after_sunset := Clock.ge now sunset;
        is_before_sunrise := Clock.lt now sunrise;
        is_after_activity_end := Clock.ge now activity_end_dt;
        is_effective_day :=
          Clock.ge now activity_start && Clock.lt now activity_end_dt |}.

(** *** Hourly drift *)

(** The new value of one key of the baseline. *)
Definition drift_value (is_daytime_flag : bool) (v r : Q) : Q :=
  if is_daytime_flag then
    let pct := 0.07 in
    let change := v * pct in
    Num.clamp (v + Num.uniform (- change) change r) (-1000) 10000
  else
    let pct := 0.05 in
    let change := v * pct in
    Num.clamp (v - Num.uniform 0 change r) (-1000) 10000.

(** The [for k in b.keys()] loop: every key gets its new value. *)
Definition drift_base (is_daytime_flag : bool) (draw : string → Q)
    (b : gmap string Q) : gmap string Q :=
  map_imap (λ k v, Some (drift_value is_daytime_flag v (draw k))) b.

(** The function updates [runtime[did]["base"]] in place. *)
Definition apply_hourly_drift_for_device (did : string) (is_daytime_flag : bool)
    (draw : string → Q) (rt : gmap string device_rt)
  : result (gmap string device_rt) :=
  d ← getitem rt did;
  Ok (<[did := set_base (drift_base is_daytime_flag draw (base d)) d]> rt).

(** *** Reading synthesis (lines 177-205) *)

Definition is_night (fl : flags) : bool :=
  is_after_sunset fl || is_before_sunrise fl.

Definition temp_adj (fl : flags) (e : tick_env) : Q :=
  if is_night fl then Num.uniform (-3.5) (-0.5) (temp_draw e)
  else Num.uniform 0.5 2.5 (temp_draw e).

Definition hum_adj (fl : flags) (e : tick_env) : Q :=
  if is_night fl then Num.uniform 0.5 4.0 (hum_draw e)
  else Num.uniform (-3.0) (-0.5) (hum_draw e).

Definition pollutant_multiplier (fl : flags) (e : tick_env) : Q :=
  if is_after_activity_end fl || is_before_sunrise fl
  then Num.uniform 0.75 0.9 (mult_draw e)
  else Num.uniform 0.98 1.08 (mult_draw e).

Definition no2_adj (fl : flags) (e : tick_env) : Q :=
  if is_after_activity_end fl || is_before_sunrise fl
  then Num.uniform (-6.0) (-1.0) (no2_draw e)
  else if is_effective_day fl then Num.uniform 2.0 10.0 (no2_draw e)
       else Num.uniform (-1.0) 2.0 (no2_draw e).

(** The dictionary literal handed to [state.update]. *)
Definition synthesize (fl : flags) (e : tick_env) (base : gmap string Q)
  : result (gmap string Q) :=
  let m := pollutant_multiplier fl e in
  b_temp ← getitem base "temperature";
  let temp := Num.clamp (b_temp + temp_adj fl e
                         + Num.gauss 0 0.5 (noise e "temperature")) (-50) 70 in
  b_hum ← getitem base "humidity";
  let hum := Num.clamp (b_hum + hum_adj fl e
                        + Num.gauss 0 1.5 (noise e "humidity")) 0 100 in
  b_co2 ← getitem base "co2";
  let co2 := Num.clamp (b_co2 * m + Num.gauss 0 5.0 (noise e "co2")) 150 5000 in
  b_no2 ← getitem base "no2";
  let no2 := Num.clamp ((b_no2 + no2_adj fl e) * m
                        + Num.gauss 0 1.5 (noise e "no2")) 0 2000 in
  b_pm25 ← getitem base "pm25";
  let pm25 := Num.clamp (b_pm25 * m + Num.gauss 0 1.5 (noise e "pm25")) 0 2000 in
  b_pm10 ← getitem base "pm10";
  let pm10 := Num.clamp (b_pm10 * m + Num.gauss 0 3.0 (noise e "pm10")) 0 5000 in
  Ok (list_to_map
        [("temperature", Num.round temp 2); ("humidity", Num.round hum 2);
         ("co2", Num.round co2 2); ("no2", Num.round no2 2);
         ("pm25", Num.round pm25 2); ("pm10", Num.round pm10 2)]).

(** *** Payload assembly (lines 207-221) *)

(** [strftime("%Y-%m-%d %H:%M:%S")] prints no microseconds. *)
Definition to_seconds (d : Clock.datetime) : Clock.datetime :=
  {| Clock.ordinal := Clock.ordinal d; Clock.hour := Clock.hour d;
     Clock.minute := Clock.minute d; Clock.second := Clock.second d;
     Clock.microsecond := 0 |}.

Definition make_payload (did : string) (fl : flags) (e : tick_env)
    (region : gmap string json) (d : device_rt) : result payload :=
  let state := state d in
  v_temp ← getitem state "temperature";
  v_hum ← getitem state "humidity";
  v_co2 ← getitem state "co2";
  v_no2 ← getitem state "no2";
  v_pm25 ← getitem state "pm25";
  v_pm10 ← getitem state "pm10";
  Ok {| p_deviceId := did;
        p_region := default (JStr did) (region !! "region_name");
        p_timestamp := to_seconds (now e);
        p_temperature := v_temp; p_humidity := v_hum; p_co2 := v_co2;
        p_no2 := v_no2; p_pm25 := v_pm25; p_pm10 := v_pm10;
        p_period := if is_after_sunset fl || is_before_sunrise fl
                    then "night" else "day";
        p_sunset := to_seconds (sunset_local_naive e);
        p_sunrise := to_seconds (sunrise_local_naive e);
        p_activity_end_hour := activity_end d |}.

(** *** Output (lines 59-68 and 225-233) *)

(** [log_payload]: the write is guarded by its own [try]. *)
Definition log_payload (e : tick_env) (p : payload) (w : world)
  : world * list event :=
  if LOG_MODE then
    if log_raises e then (w, [LogFailed])
    else
      let day := Clock.ordinal (log_now e) in
      let lines := default [] (log_dir w !! day) in
      (set_log_dir (<[day := lines ++ [p]]> (log_dir w)) w, [])
  else (w, []).

(** The [try] block of the loop.  [client] tells whether the device holds
    a hub client.  When [send_message] raises, control goes to the
    [except] clause and the rest of the block is skipped. *)
Definition send (did : string) (client : bool) (e : tick_env) (p : payload)
    (w : world) : world * list event :=
  if client then
    if send_raises e then (w, [SendFailed did])
    else
      let w1 := set_hub (hub w ++ [p]) w in
      let '(w2, evs) := log_payload e p w1 in
      (w2, SentHub did p :: evs)
  else
    let '(w2, evs) := log_payload e p w in
    (w2, SentLocal did p :: evs).

(** *** One loop iteration *)

(** Lines 148-221: everything up to the built payload.  [d] in the
    source is a reference to [runtime[deviceId]], so what it holds after
    the drift is read back from the updated [runtime]. *)
Definition simulate (did : string) (e : tick_env) (w : world)
  : result (world * list event * payload) :=
  d ← getitem (runtime w) did;
  fl ← regime (now e) (sunrise_local_naive e) (sunset_local_naive e)
              (activity_end d);
  let current_hour := Clock.hour (now e) in
  last ← getitem (last_drift_hour w) did;
  '(w1, evs) ←
    (if bool_decide (last ≠ Some current_hour) then
       rt ← apply_hourly_drift_for_device did (is_effective_day fl)
              (drift_draw e) (runtime w);
       Ok (set_last_drift_hour (<[did := Some current_hour]> (last_drift_hour w))
             (set_runtime rt w),
           [DriftApplied did (is_effective_day fl) (now e)])
     else Ok (w, []));
  d ← getitem (runtime w1) did;
  new ← synthesize fl e (base d);
  let d := set_state (new ∪ state d) d in
  let w2 := set_runtime (<[did := d]> (runtime w1)) w1 in
  region ← getitem (regions w2) did;
  p ← make_payload did fl e region d;
  Ok (w2, evs, p).

Definition tick (did : string) (client : bool) (e : tick_env) (w : world)
  : result (world * list event) :=
  '(w1, evs, p) ← simulate did e w;
  let '(w2, evs') := send did client e p w1 in
  Ok (w2, evs ++ evs').

(** The [while True] loop, run over the inputs of its first iterations.
    An exception that escapes an iteration ends the thread. *)
Fixpoint device_loop (did : string) (client : bool) (envs : list tick_env)
    (w : world) : result (world * list (list event)) :=
  match envs with
  | [] => Ok (w, [])
  | e :: es =>
      '(w1, evs) ← tick did client e w;
      '(w2, trace) ← device_loop did client es w1;
      Ok (w2, evs :: trace)
  end.

(** Whether an iteration printed the drift line. *)
Definition drift_fired (evs : list event) : bool :=
  existsb (λ ev, match ev with DriftApplied _ _ _ => true | _ => false end) evs.

End Sim.

(** ** A concrete configuration *)

Module Sample.
Import Registry Sim.
Local Open Scope Q_scope.

(** A region entry with every field but [activity_end]. *)
Definition cairo : gmap string json :=
  list_to_map
    [("region_name", JStr "Cairo"); ("lat", JNum 30.04); ("lon", JNum 31.24);
     ("temperature", JNum 20); ("humidity", JNum 50); ("co2", JNum 400);
     ("no2", JNum 30); ("pm25", JNum 10); ("pm10", JNum 20)].

(** The same entry with a midnight activity end. *)
Definition giza : gmap string json := <["activity_end" := JNum 0]> cairo.

(** An entry of a cold site: the temperature baseline is negative. *)
Definition cold : gmap string json := <["temperature" := JNum (-100)]> cairo.

Definition no_float (s : string) : option Q := None.
Definition no_int (s : string) : option Z := None.

Definition the_regions : gmap string (gmap string json) :=
  list_to_map [("dev1", cairo); ("dev2", giza); ("dev3", cold)].

Definition the_devices : list (gmap string json) :=
  [ list_to_map [("deviceId", JStr "dev1"); ("connectionString", JStr "HostName=h;k1")];
    list_to_map [("deviceId", JStr "dev2"); ("connectionString", JStr "HostName=h;k2")];
    list_to_map [("deviceId", JStr "dev3"); ("connectionString", JStr "HostName=h;k3")] ].

Definition readings (t h c n p25 p10 : Q) : gmap string Q :=
  list_to_map
    [("temperature", t); ("humidity", h); ("co2", c); ("no2", n);
     ("pm25", p25); ("pm10", p10)].

Definition device (t : Q) (ae : Z) : device_rt :=
  {| base := readings t 50 400 30 10 20; state := readings t 50 400 30 10 20;
     lat := 30.04; lon := 31.24; activity_end := ae |}.

(** The process state that start-up builds from these files. *)
Definition world0 : world :=
  {| regions := the_regions;
     runtime := list_to_map [("dev1", device 20 22); ("dev2", device 20 0);
                             ("dev3", device (-100) 22)];
     last_drift_hour := list_to_map [("dev1", None); ("dev2", None);
                                     ("dev3", None)];
     hub := []; log_dir := ∅ |}.

(** The state of the process when the threads start. *)
Definition boot : result world :=
  entries ← load_device_entries the_regions 0 the_devices;
  rt ← load_runtime no_float no_int the_regions entries ∅;
  Ok {| regions := the_regions; runtime := rt;
        last_drift_hour := initial_last_drift_hour rt;
        hub := []; log_dir := ∅ |}.

Definition at_ (o h m s : Z) : Clock.datetime :=
  {| Clock.ordinal := o; Clock.hour := h; Clock.minute := m;
     Clock.second := s; Clock.microsecond := 0 |}.

(** An iteration at [h:m] on day 739000 with sunrise at 06:05 and sunset at
    18:40, every uniform draw at one half, no noise, an unreachable hub. *)
Definition env_at (h m : Z) : tick_env :=
  {| now := at_ 739000 h m 0;
     sunrise_local_naive := at_ 739000 6 5 0;
     sunset_local_naive := at_ 739000 18 40 0;
     drift_draw := λ _, 1 # 2;
     temp_draw := 1 # 2; hum_draw := 1 # 2; mult_draw := 1 # 2;
     no2_draw := 1 # 2;
     noise := λ _, 0;
     send_raises := true;
     log_now := at_ 739000 h m 0;
     log_raises := false |}.

End Sample.


(** ** Vocabulary of the statements *)

Module Spec.
Import Registry Sim.

(** Today at 06:30:00 and the end of the activity window, as points of
    the time line: the end is today at [ae]:00:00, and midnight of the
    next calendar day when [ae] is 0. *)
Definition activity_start_instant (now : Clock.datetime) : Z :=
  (Clock.midnight (Clock.ordinal now) + (6 * 3600 + 30 * 60) * 1000000)%Z.

Definition activity_end_instant (now : Clock.datetime) (ae : Z) : Z :=
  if (ae =? 0)%Z then Clock.midnight (Clock.ordinal now + 1)
  else (Clock.midnight (Clock.ordinal now) + ae * 3600 * 1000000)%Z.

(** The reading stored under [k] lies between [lo] and [hi]. *)
Definition within (s : gmap string Q) (k : string) (lo hi : Q) : Prop :=
  ∃ v, s !! k = Some v ∧ (lo <= v)%Q ∧ (v <= hi)%Q.

(** The part of the process state a device thread relies on: start-up
    gave the device its [runtime] entry with the six baselines and an
    hour of the day as activity end, a [last_drift_hour] slot and a
    region entry. *)
Definition booted (did : string) (w : world) : Prop :=
  ∃ d, runtime w !! did = Some d
     ∧ (∀ k, k ∈ METRICS → is_Some (base d !! k))
     ∧ (0 ≤ activity_end d < 24)%Z
     ∧ is_Some (last_drift_hour w !! did)
     ∧ is_Some (regions w !! did).

(** The process state [w] with the current readings of [did] replaced
    by [s]. *)
Definition with_state (did : string) (s : gmap string Q) (w : world) : world :=
  set_runtime (alter (set_state s) did (runtime w)) w.

(** A clock reading the loop can work with: a well-formed datetime
    that is not on the last representable day. *)
Definition wall_clock (now : Clock.datetime) : Prop :=
  Clock.valid now ∧ (Clock.ordinal now < Clock.MAXORDINAL)%Z.

End Spec.

(** ** Starting the threads (lines 240-246) *)

Module Threads.
Import Registry.

Definition SEND_INTERVAL : Z := 90.
Definition STAGGER_OFFSETS : list Z := [0; 10; 20; 30; 40; 50; 60; 70]%Z.

(** [STAGGER_OFFSETS[i % len(STAGGER_OFFSETS)]]; an index out of range
    has no value. *)
Definition stagger (i : nat) : option Z :=
  STAGGER_OFFSETS !! (i mod length STAGGER_OFFSETS)%nat.

(** The loop over [enumerate(device_entries)]: every entry is paired with
    the offset its thread sleeps before the first iteration.  [i] is the
    count the enumeration has reached. *)
Fixpoint start_threads (i : nat) (entries : list device_entry)
  : option (list (device_entry * Z)) :=
  match entries with
  | [] => Some []
  | entry :: rest =>
      offset ← stagger i;
      threads ← start_threads (S i) rest;
      Some ((entry, offset) :: threads)
  end.

End Threads.

(** ** Further vocabulary and sample inputs *)

Module Inv.
Import Registry Sim.

(** Every value of a baseline lies between the two drift clamps. *)
Definition base_in_range (b : gmap string Q) : Prop :=
  ∀ k v, b !! k = Some v → (-1000 <= v)%Q ∧ (v <= 10000)%Q.

(** No value of a baseline is negative. *)
Definition base_nonneg (b : gmap string Q) : Prop :=
  ∀ k v, b !! k = Some v → (0 <= v)%Q.

(** The same loop inputs with another outcome of the two output
    operations. *)
Definition with_outcome (send_fails log_fails : bool) (e : tick_env) : tick_env :=
  {| now := now e;
     sunrise_local_naive := sunrise_local_naive e;
     sunset_local_naive := sunset_local_naive e;
     drift_draw := drift_draw e;
     temp_draw := temp_draw e; hum_draw := hum_draw e;
     mult_draw := mult_draw e; no2_draw := no2_draw e;
     noise := noise e;
     send_raises := send_fails;
     log_now := log_now e;
     log_raises := log_fails |}.

(** The sample state with the activity end of "dev1" set to [ae]. *)
Definition world_with_end (ae : Z) : world :=
  set_runtime (<["dev1" := Sample.device 20 ae]> (runtime Sample.world0))
    Sample.world0.

(** A device list whose second element has no connection string. *)
Definition broken_devices : list (gmap string json) :=
  [ list_to_map [("deviceId", JStr "dev1"); ("connectionString", JStr "k1")];
    list_to_map [("deviceId", JStr "dev2")] ].

End Inv.

(* ===================================================================== *)
(** * Part II.  Properties                                                *)
(* ===================================================================== *)

(** ** The result monad *)

Lemma bind_Ok {A B : Type} (m : result A) (f : A → result B) (b : B) :
  m ≫= f = Ok b → ∃ a, m = Ok a ∧ f a = Ok b.
Proof. destruct m as [a|x]; simpl; [eauto | discriminate]. Qed.

Lemma getitem_Ok {V : Type} (m : gmap string V) (k : string) (v : V) :
  getitem m k = Ok v ↔ m !! k = Some v.
Proof. unfold getitem. destruct (m !! k); split; congruence. Qed.

Lemma getitem_Raise {V : Type} (m : gmap string V) (k : string) (x : exn) :
  getitem m k = Raise x ↔ m !! k = None ∧ x = KeyError k.
Proof.
  unfold getitem. destruct (m !! k); split.
  - discriminate.
  - intros [? _]; discriminate.
  - intros [= <-]; done.
  - intros [_ ->]; reflexivity.
Qed.

(** Peel the binds of a computation known to return. *)
Ltac peel H :=
  repeat match type of H with
  | (_ ≫= _) = Ok _ =>
      let a := fresh "a" in let Ha := fresh "Ha" in
      apply bind_Ok in H as (a & Ha & H)
  | mbind _ _ = Ok _ =>
      let a := fresh "a" in let Ha := fresh "Ha" in
      apply bind_Ok in H as (a & Ha & H)
  end.

(** ** Numeric helpers *)

Module NumFacts.
Import Num.
Local Open Scope Q_scope.

Lemma clamp_bounds (v lo hi : Q) :
  lo <= hi → lo <= clamp v lo hi ∧ clamp v lo hi <= hi.
Proof.
  intros H. unfold clamp.
  destruct (Q.max_spec lo (Qmin hi v)) as [[? E1]|[? E1]];
  destruct (Q.min_spec hi v) as [[? E2]|[? E2]];
  rewrite E1; rewrite ?E2 in *; split; lra.
Qed.

(** A clamped value never exceeds the larger of its input and the floor. *)
Lemma clamp_le (v lo hi top : Q) :
  v <= top → lo <= top → clamp v lo hi <= top.
Proof.
  intros Hv Hlo. unfold clamp.
  destruct (Q.max_spec lo (Qmin hi v)) as [[? E1]|[? E1]];
  destruct (Q.min_spec hi v) as [[? E2]|[? E2]];
  rewrite E1; rewrite ?E2 in *; lra.
Qed.

Lemma clamp_ge (v lo hi bot : Q) :
  bot <= v → bot <= hi → bot <= clamp v lo hi.
Proof.
  intros Hv Hhi. unfold clamp.
  destruct (Q.max_spec lo (Qmin hi v)) as [[? E1]|[? E1]];
  destruct (Q.min_spec hi v) as [[? E2]|[? E2]];
  rewrite E1; rewrite ?E2 in *; lra.
Qed.

Lemma uniform_bounds (a b r : Q) :
  a <= b → unit_draw r → a <= uniform a b r ∧ uniform a b r <= b.
Proof. unfold uniform, unit_draw. intros Hab [H0 H1]. split; nra. Qed.

Lemma round_half_even_floor (q : Q) : (Qfloor q ≤ round_half_even q)%Z.
Proof.
  unfold round_half_even.
  destruct (Qcompare _ _); [destruct (Z.even _) | |]; lia.
Qed.

Lemma round_half_even_le (q : Q) (k : Z) :
  q <= inject_Z k → (round_half_even q ≤ k)%Z.
Proof.
  intros Hq.
  assert (Hf : (Qfloor q ≤ k)%Z).
  { rewrite <- (Qfloor_Z k). by apply Qfloor_resp_le. }
  destruct (Z.eq_dec (Qfloor q) k) as [E|N].
  - unfold round_half_even. rewrite E.
    assert (Hlt : q - inject_Z k < 1 # 2) by lra.
    rewrite Qlt_alt in Hlt. rewrite Hlt. lia.
  - pose proof (round_half_even_floor q).
    unfold round_half_even in *.
    destruct (Qcompare _ _); [destruct (Z.even _) | |]; lia.
Qed.

Lemma pow10_pos (n : nat) : 0 < inject_Z (10 ^ Z.of_nat n).
Proof.
  change 0 with (inject_Z 0). rewrite <- Zlt_Qlt.
  apply Z.pow_pos_nonneg; lia.
Qed.

(** Rounding to [n] decimals cannot leave an interval with integer ends. *)
Lemma round_bounds (x : Q) (n : nat) (lo hi : Z) :
  inject_Z lo <= x → x <= inject_Z hi →
  inject_Z lo <= round x n ∧ round x n <= inject_Z hi.
Proof.
  intros Hlo Hhi. unfold round.
  pose proof (pow10_pos n) as Hp.
  set (p := inject_Z (10 ^ Z.of_nat n)) in *.
  assert (H1 : (lo * 10 ^ Z.of_nat n ≤ round_half_even (x * p))%Z).
  { etrans; [| apply round_half_even_floor].
    rewrite <- (Qfloor_Z (lo * _)). apply Qfloor_resp_le.
    rewrite inject_Z_mult. fold p. nra. }
  assert (H2 : (round_half_even (x * p) ≤ hi * 10 ^ Z.of_nat n)%Z).
  { apply round_half_even_le. rewrite inject_Z_mult. fold p. nra. }
  rewrite Zle_Qle in H1, H2. rewrite inject_Z_mult in H1, H2. fold p in H1, H2.
  split.
  - apply Qle_shift_div_l; [done | lra].
  - apply Qle_shift_div_r; [done | lra].
Qed.

End NumFacts.

(** ** Naive datetimes *)

Module ClockFacts.
Import Clock.
Local Open Scope Z_scope.

(** On well-formed datetimes the field-wise comparison is the order of
    the time line. *)
Lemma compare_instant (a b : datetime) :
  valid a → valid b → compare a b = (instant a ?= instant b).
Proof.
  unfold valid, compare, lex, instant. intros Ha Hb.
  symmetry.
  destruct (Z.compare_spec (ordinal a) (ordinal b));
    [destruct (Z.compare_spec (hour a) (hour b));
      [destruct (Z.compare_spec (minute a) (minute b));
        [destruct (Z.compare_spec (second a) (second b));
          [destruct (Z.compare_spec (microsecond a) (microsecond b))|..]|..]|..]|..];
  first [apply Z.compare_eq_iff | apply Z.compare_lt_iff | apply Z.compare_gt_iff];
  lia.
Qed.

Lemma lt_instant (a b : datetime) :
  valid a → valid b → lt a b = true ↔ instant a < instant b.
Proof.
  intros Ha Hb. unfold lt. rewrite compare_instant by done.
  destruct (Z.compare_spec (instant a) (instant b)); split; (lia || discriminate || done).
Qed.

Lemma ge_instant (a b : datetime) :
  valid a → valid b → ge a b = true ↔ instant b ≤ instant a.
Proof.
  intros Ha Hb. unfold ge. rewrite compare_instant by done.
  destruct (Z.compare_spec (instant a) (instant b)); split; (lia || discriminate || done).
Qed.

Lemma ge_negb_lt (a b : datetime) : ge a b = negb (lt a b).
Proof. unfold ge, lt. by destruct (compare a b). Qed.

Lemma replace_Ok (d : datetime) (h m : Z) :
  0 ≤ h < 24 → 0 ≤ m < 60 →
  replace d h m = Ok (mkdt (ordinal d) h m 0 0).
Proof.
  intros Hh Hm. unfold replace, fits_int.
  rewrite !bool_decide_eq_true_2 by lia. reflexivity.
Qed.

Lemma add_days_Ok (d : datetime) (n : Z) :
  0 < ordinal d + n ≤ MAXORDINAL →
  add_days d n = Ok (mkdt (ordinal d + n) (hour d) (minute d) (second d)
                          (microsecond d)).
Proof.
  intros H. unfold add_days. cbv zeta.
  rewrite bool_decide_eq_true_2 by done. reflexivity.
Qed.

End ClockFacts.

(** ** Structure of one loop iteration *)

Module SimFacts.
Import Registry Sim Spec.

(** The datetime the loop compares [now] with. *)
Lemma regime_Ok (now sunrise sunset : Clock.datetime) (ae : Z) :
  (0 ≤ ae < 24)%Z →
  (ae = 0 → 0 < Clock.ordinal now + 1 ≤ Clock.MAXORDINAL)%Z →
  regime now sunrise sunset ae =
    Ok {| is_after_sunset := Clock.ge now sunset;
          is_before_sunrise := Clock.lt now sunrise;
          is_after_activity_end :=
            Clock.ge now (Clock.mkdt (if (ae =? 0)%Z then Clock.ordinal now + 1
                                      else Clock.ordinal now) ae 0 0 0);
          is_effective_day :=
            Clock.ge now (Clock.mkdt (Clock.ordinal now) 6 30 0 0)
            && Clock.lt now (Clock.mkdt (if (ae =? 0)%Z then Clock.ordinal now + 1
                                         else Clock.ordinal now) ae 0 0 0) |}.
Proof.
  intros Hae Hmax. unfold regime, ACTIVITY_START_HOUR, ACTIVITY_START_MIN.
  rewrite !ClockFacts.replace_Ok by lia. simpl.
  destruct (Z.eqb_spec ae 0) as [->|Hne]; simpl.
  - rewrite ClockFacts.add_days_Ok by (simpl; lia). reflexivity.
  - reflexivity.
Qed.

(** The two solar flags never depend on the activity window. *)
Lemma regime_solar (now sunrise sunset : Clock.datetime) (ae : Z) (fl : flags) :
  regime now sunrise sunset ae = Ok fl →
  is_after_sunset fl = Clock.ge now sunset ∧
  is_before_sunrise fl = Clock.lt now sunrise.
Proof.
  unfold regime. intros H. peel H. injection H as <-. done.
Qed.

Lemma drift_base_lookup (flag : bool) (draw : string → Q) (b : gmap string Q)
    (k : string) :
  drift_base flag draw b !! k = (λ v, drift_value flag v (draw k)) <$> b !! k.
Proof.
  unfold drift_base. rewrite map_lookup_imap. by destruct (b !! k).
Qed.

(** The dictionary built by [synthesize] has exactly the six metric keys. *)
Lemma synthesize_keys (fl : flags) (e : tick_env) (b new : gmap string Q)
    (k : string) :
  synthesize fl e b = Ok new → (is_Some (new !! k) ↔ k ∈ METRICS).
Proof.
  unfold synthesize. intros H. peel H. injection H as <-.
  unfold METRICS. rewrite !elem_of_cons, elem_of_nil.
  split.
  - intros [v Hv]. simpl in Hv.
    repeat (rewrite lookup_insert in Hv; case_decide; [auto 10 |]).
    by rewrite lookup_empty in Hv.
  - intros [->|[->|[->|[->|[->|[->|[]]]]]]]; simpl; simplify_map_eq; eauto.
Qed.

Lemma synthesize_total (fl : flags) (e : tick_env) (b : gmap string Q) :
  (∀ k, k ∈ METRICS → is_Some (b !! k)) → ∃ new, synthesize fl e b = Ok new.
Proof.
  intros Hk. unfold synthesize, getitem.
  destruct (Hk "temperature") as [? ->]; [set_solver |].
  destruct (Hk "humidity") as [? ->]; [set_solver |].
  destruct (Hk "co2") as [? ->]; [set_solver |].
  destruct (Hk "no2") as [? ->]; [set_solver |].
  destruct (Hk "pm25") as [? ->]; [set_solver |].
  destruct (Hk "pm10") as [? ->]; [set_solver |].
  simpl. eauto.
Qed.

(** What a returning [simulate] did, step by step. *)
Lemma simulate_inv (did : string) (e : tick_env) (w w' : world)
    (evs : list event) (p : payload) :
  simulate did e w = Ok (w', evs, p) →
  ∃ d fl last new region,
    runtime w !! did = Some d
    ∧ regime (now e) (sunrise_local_naive e) (sunset_local_naive e)
             (activity_end d) = Ok fl
    ∧ last_drift_hour w !! did = Some last
    ∧ regions w !! did = Some region
    ∧ let fired := bool_decide (last ≠ Some (Clock.hour (now e))) in
      let b := if fired
               then drift_base (is_effective_day fl) (drift_draw e) (base d)
               else base d in
      let d' := set_state (new ∪ state d) (set_base b d) in
      synthesize fl e b = Ok new
      ∧ make_payload did fl e region d' = Ok p
      ∧ evs = (if fired then [DriftApplied did (is_effective_day fl) (now e)]
               else [])
      ∧ w' = {| regions := regions w;
                runtime := <[did := d']> (runtime w);
                last_drift_hour :=
                  if fired
                  then <[did := Some (Clock.hour (now e))]> (last_drift_hour w)
                  else last_drift_hour w;
                hub := hub w; log_dir := log_dir w |}.
Proof.
  unfold simulate. intros H.
  apply bind_Ok in H as (d & Hd & H). apply getitem_Ok in Hd.
  apply bind_Ok in H as (fl & Hfl & H).
  apply bind_Ok in H as (last & Hlast & H). apply getitem_Ok in Hlast.
  apply bind_Ok in H as ([w1 evs1] & Hdrift & H).
  apply bind_Ok in H as (d1 & Hd1 & H). apply getitem_Ok in Hd1.
  apply bind_Ok in H as (new & Hnew & H).
  apply bind_Ok in H as (region & Hreg & H). apply getitem_Ok in Hreg.
  apply bind_Ok in H as (p' & Hp & H).
  injection H as <- <- <-.
  exists d, fl, last, new, region.
  case_bool_decide as Hfire; cbv zeta.
  - apply bind_Ok in Hdrift as (rt & Hrt & Hdrift).
    injection Hdrift as <- <-.
    unfold apply_hourly_drift_for_device in Hrt.
    apply bind_Ok in Hrt as (d0 & Hd0 & Hrt). apply getitem_Ok in Hd0.
    injection Hrt as <-. simplify_eq.
    simpl in *. rewrite lookup_insert_eq in Hd1. simplify_eq.
    rewrite insert_insert_eq. done.
  - injection Hdrift as <- <-. simplify_eq.
    simpl in *.
    assert (set_base (base d) d = d) as -> by by destruct d.
    done.
Qed.

Lemma make_payload_total (did : string) (fl : flags) (e : tick_env)
    (region : gmap string json) (d : device_rt) :
  (∀ k, k ∈ METRICS → is_Some (state d !! k)) →
  ∃ p, make_payload did fl e region d = Ok p.
Proof.
  intros Hk. unfold make_payload, getitem.
  destruct (Hk "temperature") as [? ->]; [set_solver |].
  destruct (Hk "humidity") as [? ->]; [set_solver |].
  destruct (Hk "co2") as [? ->]; [set_solver |].
  destruct (Hk "no2") as [? ->]; [set_solver |].
  destruct (Hk "pm25") as [? ->]; [set_solver |].
  destruct (Hk "pm10") as [? ->]; [set_solver |].
  simpl. eauto.
Qed.

(** Synthesis followed by payload assembly returns on any baseline that
    has the six keys. *)
Lemma readings_total (did : string) (fl : flags) (e : tick_env)
    (region : gmap string json) (d : device_rt) (b : gmap string Q) :
  (∀ k, k ∈ METRICS → is_Some (b !! k)) →
  ∃ new p, synthesize fl e b = Ok new
         ∧ make_payload did fl e region
             (set_state (new ∪ state d) (set_base b d)) = Ok p.
Proof.
  intros Hk. destruct (synthesize_total fl e b Hk) as [new Hnew].
  destruct (make_payload_total did fl e region
              (set_state (new ∪ state d) (set_base b d))) as [p Hp].
  { intros k Hin. simpl.
    destruct (proj2 (synthesize_keys fl e b new k Hnew) Hin) as [v Hv].
    exists v. by apply lookup_union_Some_l. }
  eauto.
Qed.

(** [simulate] returns whenever the device is booted and the clock is
    sane. *)
Lemma simulate_total (did : string) (e : tick_env) (w : world) :
  booted did w → wall_clock (now e) → ∃ r, simulate did e w = Ok r.
Proof.
  intros (d & Hd & Hkeys & Hae & [last Hlast] & [region Hreg]) [Hvalid Hmax].
  unfold simulate, getitem. rewrite Hd. simpl.
  rewrite regime_Ok by (unfold Clock.valid in Hvalid; lia).
  set (fl := Build_flags _ _ _ _). clearbody fl. simpl.
  rewrite Hlast. simpl.
  case_bool_decide as Hfire; simpl.
  - unfold apply_hourly_drift_for_device, getitem. rewrite Hd. simpl.
    rewrite lookup_insert_eq. simpl.
    destruct (readings_total did fl e region d
                (drift_base (is_effective_day fl) (drift_draw e) (base d)))
      as (new & p & Hnew & Hp).
    { intros k Hk. rewrite drift_base_lookup.
      destruct (Hkeys k Hk) as [v ->]. by eexists. }
    rewrite Hnew. simpl. rewrite Hreg. simpl. rewrite Hp. simpl. eauto.
  - rewrite Hd. simpl.
    destruct (readings_total did fl e region d (base d) Hkeys)
      as (new & p & Hnew & Hp).
    rewrite Hnew. simpl. rewrite Hreg. simpl.
    assert (set_base (base d) d = d) as E by by destruct d.
    rewrite E in Hp. rewrite Hp. simpl. eauto.
Qed.

End SimFacts.

(** ** Regime classification *)

Import Registry Sim Spec SimFacts.

(** Start-up on the sample files yields the sample state. *)
Example boot_world0 : Sample.boot = Ok Sample.world0.
Proof. vm_compute. reflexivity. Qed.

(** The sample state is booted for each of its devices, and the sample
    clock readings are sane. *)
Lemma Sample_booted (did : string) :
  did ∈ ["dev1"; "dev2"; "dev3"] → booted did Sample.world0.
Proof.
  intros Hin. rewrite !elem_of_cons, elem_of_nil in Hin.
  assert (Hkeys : ∀ t ae k, k ∈ METRICS →
            is_Some (base (Sample.device t ae) !! k)).
  { intros t ae k Hk. unfold METRICS in Hk.
    rewrite !elem_of_cons, elem_of_nil in Hk.
    destruct Hk as [->|[->|[->|[->|[->|[->|[]]]]]]]; by eexists. }
  destruct Hin as [->|[->|[->|[]]]];
    [exists (Sample.device 20 22) | exists (Sample.device 20 0)
     | exists (Sample.device (-100) 22)];
    (split; [reflexivity |]); (split; [apply Hkeys |]);
    (split; [simpl; lia |]); split; by eexists.
Qed.

Lemma Sample_clock (h m : Z) :
  (0 ≤ h < 24)%Z → (0 ≤ m < 60)%Z → wall_clock (now (Sample.env_at h m)).
Proof.
  intros Hh Hm. unfold wall_clock, Clock.valid, Clock.MAXORDINAL. simpl. lia.
Qed.

(** C4.  For a well-formed clock reading [now] and an activity-end hour
    between 0 and 23, the classification returns, and its
    [is_effective_day] flag is true exactly when [now] is at or after
    today 06:30:00 and strictly before the activity end, which is today at
    that hour and midnight of the next day when the hour is 0; with hour 0
    and [now] at 23:30 the flag is true.  (With hour 0 the next day has to
    be representable.) *)
Theorem effective_day_window (now sunrise sunset : Clock.datetime) (ae : Z) :
  Clock.valid now →
  (0 ≤ ae < 24)%Z →
  (ae = 0 → Clock.ordinal now < Clock.MAXORDINAL)%Z →
  ∃ fl, regime now sunrise sunset ae = Ok fl
      ∧ (is_effective_day fl = true ↔
           (activity_start_instant now ≤ Clock.instant now
            ∧ Clock.instant now < activity_end_instant now ae)%Z)
      ∧ (ae = 0%Z → Clock.hour now = 23%Z → Clock.minute now = 30%Z →
           is_effective_day fl = true).
Proof.
  intros Hvalid Hae Hmax.
  assert (Hord : (1 ≤ Clock.ordinal now ≤ Clock.MAXORDINAL)%Z)
    by (unfold Clock.valid in Hvalid; lia).
  eexists. split; [apply regime_Ok; lia |]. cbn [is_effective_day].
  set (start := Clock.mkdt (Clock.ordinal now) 6 30 0 0).
  set (stop := Clock.mkdt _ ae 0 0 0).
  assert (Hstart : Clock.valid start) by (unfold Clock.valid; simpl; lia).
  assert (Hstop : Clock.valid stop).
  { unfold Clock.valid, stop; simpl. destruct (Z.eqb_spec ae 0); lia. }
  assert (Ewin : Clock.ge now start && Clock.lt now stop = true ↔
            (activity_start_instant now ≤ Clock.instant now
             ∧ Clock.instant now < activity_end_instant now ae)%Z).
  { rewrite andb_true_iff, ClockFacts.ge_instant, ClockFacts.lt_instant by done.
    unfold activity_start_instant, activity_end_instant, Clock.midnight,
      Clock.instant, start, stop. simpl.
    destruct (Z.eqb_spec ae 0); lia. }
  split; [exact Ewin |].
  intros -> H23 H30. apply Ewin.
  unfold activity_start_instant, activity_end_instant, Clock.midnight,
    Clock.instant, Clock.valid in *. simpl. lia.
Qed.

Lemma effective_day_window_witness :
  ∃ fl, regime (Sample.at_ 739000 23 30 0) (Sample.at_ 739000 6 5 0)
               (Sample.at_ 739000 18 40 0) 0 = Ok fl
      ∧ is_effective_day fl = true.
Proof.
  destruct (effective_day_window (Sample.at_ 739000 23 30 0)
              (Sample.at_ 739000 6 5 0) (Sample.at_ 739000 18 40 0) 0)
    as (fl & Hfl & _ & H2330).
  - unfold Clock.valid, Clock.MAXORDINAL; simpl; lia.
  - lia.
  - intros _. unfold Clock.MAXORDINAL; simpl; lia.
  - exists fl. split; [exact Hfl | by apply H2330].
Defined.

(** C6.  The [period] field of the payload an iteration builds is
    "night" exactly when [now] is strictly before the sunrise instant or
    at or after the sunset instant, and "day" otherwise; it is the same
    for every device, state and activity window that sees this clock and
    these sun times. *)
Theorem period_follows_the_sun (did : string) (e : tick_env) (w w' : world)
    (evs : list event) (p : payload) :
  Clock.valid (now e) →
  Clock.valid (sunrise_local_naive e) →
  Clock.valid (sunset_local_naive e) →
  simulate did e w = Ok (w', evs, p) →
  let night := (Clock.instant (now e) < Clock.instant (sunrise_local_naive e)
                ∨ Clock.instant (sunset_local_naive e) ≤ Clock.instant (now e))%Z in
  (p_period p = "night" ↔ night)
  ∧ (p_period p = "day" ↔ ¬ night)
  ∧ ∀ did2 e2 w2 w2' evs2 p2,
      now e2 = now e →
      sunrise_local_naive e2 = sunrise_local_naive e →
      sunset_local_naive e2 = sunset_local_naive e →
      simulate did2 e2 w2 = Ok (w2', evs2, p2) →
      p_period p2 = p_period p.
Proof.
  intros Hnow Hrise Hset Hsim night.
  assert (Hperiod : ∀ did e w w' evs p,
            simulate did e w = Ok (w', evs, p) →
            p_period p = if Clock.ge (now e) (sunset_local_naive e)
                            || Clock.lt (now e) (sunrise_local_naive e)
                         then "night" else "day").
  { clear. intros did e w w' evs p H.
    apply simulate_inv in H
      as (d & fl & last & new & region & _ & Hfl & _ & _ & _ & Hp & _).
    apply regime_solar in Hfl as [<- <-].
    unfold make_payload in Hp. peel Hp. by injection Hp as <-. }
  assert (Hnight : Clock.ge (now e) (sunset_local_naive e)
                   || Clock.lt (now e) (sunrise_local_naive e) = true ↔ night).
  { rewrite orb_true_iff, ClockFacts.ge_instant, ClockFacts.lt_instant by done.
    unfold night. tauto. }
  rewrite (Hperiod _ _ _ _ _ _ Hsim).
  split; [| split].
  - rewrite <- Hnight. destruct (_ || _); split; (done || discriminate).
  - rewrite <- Hnight. destruct (_ || _); split; try done; try discriminate.
  - intros did2 e2 w2 w2' evs2 p2 E1 E2 E3 Hsim2.
    rewrite (Hperiod _ _ _ _ _ _ Hsim2), E1, E2, E3. reflexivity.
Qed.

Lemma period_follows_the_sun_witness :
  ∃ w' evs p,
    simulate "dev2" (Sample.env_at 23 30) Sample.world0 = Ok (w', evs, p)
    ∧ p_period p = "night".
Proof.
  destruct (simulate_total "dev2" (Sample.env_at 23 30) Sample.world0)
    as [[[w' evs] p] Hsim].
  - apply Sample_booted. rewrite !elem_of_cons. auto.
  - apply Sample_clock; lia.
  - exists w', evs, p. split; [exact Hsim |].
    apply (period_follows_the_sun "dev2" (Sample.env_at 23 30) Sample.world0
             w' evs p); try exact Hsim;
      try (unfold Clock.valid, Clock.MAXORDINAL; simpl; lia).
    right. vm_compute. discriminate.
Defined.

(** ** Output step: what it touches *)

Lemma log_payload_frame (e : tick_env) (p : payload) (w w' : world)
    (evs : list event) :
  log_payload e p w = (w', evs) →
  runtime w' = runtime w ∧ last_drift_hour w' = last_drift_hour w
  ∧ regions w' = regions w ∧ hub w' = hub w.
Proof.
  unfold log_payload. destruct LOG_MODE, (log_raises e); intros [= <- <-]; done.
Qed.

Lemma send_frame (did : string) (client : bool) (e : tick_env) (p : payload)
    (w w' : world) (evs : list event) :
  send did client e p w = (w', evs) →
  runtime w' = runtime w ∧ last_drift_hour w' = last_drift_hour w
  ∧ regions w' = regions w.
Proof.
  unfold send. destruct client; [destruct (send_raises e) |].
  - intros [= <- <-]; done.
  - destruct (log_payload _ _ _) as [w2 evs2] eqn:Hlog.
    intros [= <- <-]. apply log_payload_frame in Hlog as (-> & -> & -> & _). done.
  - destruct (log_payload _ _ _) as [w2 evs2] eqn:Hlog.
    intros [= <- <-]. apply log_payload_frame in Hlog as (-> & -> & -> & _). done.
Qed.

(** The output step prints no drift line. *)
Lemma send_no_drift (did : string) (client : bool) (e : tick_env) (p : payload)
    (w w' : world) (evs : list event) :
  send did client e p w = (w', evs) → drift_fired evs = false.
Proof.
  unfold send, log_payload.
  destruct client, (send_raises e), LOG_MODE, (log_raises e);
    intros [= <- <-]; reflexivity.
Qed.

(** An iteration is [simulate] followed by [send]. *)
Lemma tick_inv (did : string) (client : bool) (e : tick_env) (w w' : world)
    (evs : list event) :
  tick did client e w = Ok (w', evs) →
  ∃ w1 evs1 p evs2,
    simulate did e w = Ok (w1, evs1, p)
    ∧ send did client e p w1 = (w', evs2)
    ∧ evs = evs1 ++ evs2.
Proof.
  unfold tick. intros H.
  apply bind_Ok in H as ([[w1 evs1] p] & Hsim & H).
  destruct (send did client e p w1) as [w2 evs2] eqn:Hsend.
  injection H as <- <-. eauto 10.
Qed.

Lemma tick_total (did : string) (client : bool) (e : tick_env) (w : world) :
  booted did w → wall_clock (now e) → ∃ r, tick did client e w = Ok r.
Proof.
  intros Hb Hc. destruct (simulate_total did e w Hb Hc) as [[[w1 evs1] p] Hsim].
  unfold tick. rewrite Hsim. simpl.
  destruct (send did client e p w1). eauto.
Qed.

(** ** Reading synthesis *)

Lemma within_union (new s : gmap string Q) (k : string) (lo hi : Q) :
  within new k lo hi → within (new ∪ s) k lo hi.
Proof.
  intros (v & Hv & Hb). exists v. split; [by apply lookup_union_Some_l | done].
Qed.

Lemma rounded_clamp_bounds (v : Q) (lo hi : Z) :
  (lo ≤ hi)%Z →
  (inject_Z lo <= Num.round (Num.clamp v (inject_Z lo) (inject_Z hi)) 2)%Q
  ∧ (Num.round (Num.clamp v (inject_Z lo) (inject_Z hi)) 2 <= inject_Z hi)%Q.
Proof.
  intros H. apply NumFacts.round_bounds;
    apply NumFacts.clamp_bounds; by rewrite <- Zle_Qle.
Qed.

Lemma synthesize_within (fl : flags) (e : tick_env) (b new : gmap string Q) :
  synthesize fl e b = Ok new →
  within new "temperature" (-50) 70 ∧ within new "humidity" 0 100
  ∧ within new "co2" 150 5000 ∧ within new "no2" 0 2000
  ∧ within new "pm25" 0 2000 ∧ within new "pm10" 0 5000.
Proof.
  unfold synthesize. intros H. peel H. injection H as <-.
  unfold within. repeat split; eexists; (split; [by simplify_map_eq |]).
  - apply (rounded_clamp_bounds _ (-50) 70). lia.
  - apply (rounded_clamp_bounds _ 0 100). lia.
  - apply (rounded_clamp_bounds _ 150 5000). lia.
  - apply (rounded_clamp_bounds _ 0 2000). lia.
  - apply (rounded_clamp_bounds _ 0 2000). lia.
  - apply (rounded_clamp_bounds _ 0 5000). lia.
Qed.

(** C3.  Whatever the baseline, the regime flags and the random draws,
    the readings an iteration stores into the device's current state lie
    within their clamp bounds: temperature in [-50, 70], humidity in
    [0, 100], co2 in [150, 5000], no2 in [0, 2000], pm25 in [0, 2000] and
    pm10 in [0, 5000]. *)
Theorem readings_within_bounds (did : string) (client : bool) (e : tick_env)
    (w w' : world) (evs : list event) :
  tick did client e w = Ok (w', evs) →
  ∃ d', runtime w' !! did = Some d'
      ∧ within (state d') "temperature" (-50) 70
      ∧ within (state d') "humidity" 0 100
      ∧ within (state d') "co2" 150 5000
      ∧ within (state d') "no2" 0 2000
      ∧ within (state d') "pm25" 0 2000
      ∧ within (state d') "pm10" 0 5000.
Proof.
  intros H. apply tick_inv in H as (w1 & evs1 & p & evs2 & Hsim & Hsend & _).
  apply send_frame in Hsend as (-> & _ & _).
  apply simulate_inv in Hsim
    as (d & fl & last & new & region & _ & _ & _ & _ & Hnew & _ & _ & ->).
  eexists. split; [apply lookup_insert_eq |].
  apply synthesize_within in Hnew as (H1 & H2 & H3 & H4 & H5 & H6).
  cbn [state set_state]. repeat split; by apply within_union.
Qed.

Lemma readings_within_bounds_witness :
  ∃ w' evs d',
    tick "dev3" true (Sample.env_at 23 30) Sample.world0 = Ok (w', evs)
    ∧ runtime w' !! "dev3" = Some d'
    ∧ within (state d') "temperature" (-50) 70.
Proof.
  destruct (tick_total "dev3" true (Sample.env_at 23 30) Sample.world0)
    as [[w' evs] Htick].
  - apply Sample_booted. rewrite !elem_of_cons. auto.
  - apply Sample_clock; lia.
  - destruct (readings_within_bounds _ _ _ _ _ _ Htick) as (d' & Hd' & Ht & _).
    exists w', evs, d'. exact (conj Htick (conj Hd' Ht)).
Defined.

(** C8.  In the quiet period ([is_after_activity_end or
    is_before_sunrise]) the pollutant multiplier is the uniform draw from
    [0.75, 0.9] and the NO2 offset the uniform draw from [-6.0, -1.0];
    otherwise the multiplier is drawn from [0.98, 1.08] and the NO2 offset
    from [2.0, 10.0] when [is_effective_day] holds and from [-1.0, 2.0]
    when it does not. *)
Theorem pollutant_draws_by_regime (fl : flags) (e : tick_env) :
  Num.unit_draw (mult_draw e) →
  Num.unit_draw (no2_draw e) →
  let m := pollutant_multiplier fl e in
  let n := no2_adj fl e in
  if is_after_activity_end fl || is_before_sunrise fl then
    m = Num.uniform 0.75 0.9 (mult_draw e) ∧ (0.75 <= m)%Q ∧ (m <= 0.9)%Q
    ∧ n = Num.uniform (-6.0) (-1.0) (no2_draw e) ∧ (-6.0 <= n)%Q ∧ (n <= -1.0)%Q
  else
    m = Num.uniform 0.98 1.08 (mult_draw e) ∧ (0.98 <= m)%Q ∧ (m <= 1.08)%Q
    ∧ if is_effective_day fl then
        n = Num.uniform 2.0 10.0 (no2_draw e) ∧ (2.0 <= n)%Q ∧ (n <= 10.0)%Q
      else
        n = Num.uniform (-1.0) 2.0 (no2_draw e) ∧ (-1.0 <= n)%Q ∧ (n <= 2.0)%Q.
Proof.
  intros Hm Hn. unfold pollutant_multiplier, no2_adj. cbv zeta.
  destruct (is_after_activity_end fl || is_before_sunrise fl).
  - destruct (NumFacts.uniform_bounds 0.75 0.9 _ ltac:(lra) Hm).
    destruct (NumFacts.uniform_bounds (-6.0) (-1.0) _ ltac:(lra) Hn).
    done.
  - destruct (NumFacts.uniform_bounds 0.98 1.08 _ ltac:(lra) Hm).
    destruct (is_effective_day fl).
    + destruct (NumFacts.uniform_bounds 2.0 10.0 _ ltac:(lra) Hn). done.
    + destruct (NumFacts.uniform_bounds (-1.0) 2.0 _ ltac:(lra) Hn). done.
Qed.

(** At 14:00 with an activity end of 22 the iteration is in the
    effective day and outside the quiet period. *)
Lemma pollutant_draws_by_regime_witness :
  ∃ fl, regime (now (Sample.env_at 14 0))
               (sunrise_local_naive (Sample.env_at 14 0))
               (sunset_local_naive (Sample.env_at 14 0)) 22 = Ok fl
      ∧ (0.98 <= pollutant_multiplier fl (Sample.env_at 14 0))%Q
      ∧ (pollutant_multiplier fl (Sample.env_at 14 0) <= 1.08)%Q.
Proof.
  eexists. split; [reflexivity |].
  pose proof (pollutant_draws_by_regime
                {| is_after_sunset := false; is_before_sunrise := false;
                   is_after_activity_end := false; is_effective_day := true |}
                (Sample.env_at 14 0)) as H.
  simpl in H.
  destruct H as (_ & Hlo & Hhi & _).
  - unfold Num.unit_draw; split; [discriminate | reflexivity].
  - unfold Num.unit_draw; split; [discriminate | reflexivity].
  - split; [exact Hlo | exact Hhi].
Defined.

(** ** Hourly drift *)

Lemma night_drift_value_le (v r : Q) :
  (0 <= v)%Q → (0 <= r)%Q → (drift_value false v r <= v)%Q.
Proof.
  intros Hv Hr. unfold drift_value. cbv zeta.
  apply NumFacts.clamp_le; [unfold Num.uniform; nra | lra].
Qed.

(** On a negative baseline the same step goes the other way. *)
Lemma night_drift_value_ge (v r : Q) :
  (v <= 0)%Q → (0 <= r)%Q → (v <= drift_value false v r)%Q.
Proof.
  intros Hv Hr. unfold drift_value. cbv zeta.
  apply NumFacts.clamp_ge; [unfold Num.uniform; nra | lra].
Qed.

(** C2, as amended.  For every metric key whose baseline lies in
    [0, 10000] and every random draw, the night-mode hourly drift step
    does not increase that baseline. *)
Theorem night_drift_never_increases (did : string) (draw : string → Q)
    (rt rt' : gmap string device_rt) (d : device_rt) (k : string) (v : Q) :
  apply_hourly_drift_for_device did false draw rt = Ok rt' →
  rt !! did = Some d →
  base d !! k = Some v →
  (0 <= v)%Q → (v <= 10000)%Q →
  Num.unit_draw (draw k) →
  ∃ d' v', rt' !! did = Some d' ∧ base d' !! k = Some v' ∧ (v' <= v)%Q.
Proof.
  intros Hdrift Hd Hk H0 Hmax [Hr _].
  unfold apply_hourly_drift_for_device in Hdrift.
  apply bind_Ok in Hdrift as (d0 & Hd0 & Hdrift). apply getitem_Ok in Hd0.
  injection Hdrift as <-. simplify_eq.
  eexists _, _. split; [apply lookup_insert_eq |]. cbn [base set_base].
  rewrite drift_base_lookup, Hk. split; [reflexivity |].
  by apply night_drift_value_le.
Qed.

Lemma night_drift_never_increases_witness :
  ∃ rt' d' v',
    apply_hourly_drift_for_device "dev1" false (λ _, 1 # 2)
      (runtime Sample.world0) = Ok rt'
    ∧ rt' !! "dev1" = Some d' ∧ base d' !! "temperature" = Some v'
    ∧ (v' <= 20)%Q.
Proof.
  exists (<["dev1" := set_base (drift_base false (λ _, 1 # 2)
                                   (base (Sample.device 20 22)))
                         (Sample.device 20 22)]> (runtime Sample.world0)).
  destruct (night_drift_never_increases "dev1" (λ _, 1 # 2)
              (runtime Sample.world0)
              (<["dev1" := set_base (drift_base false (λ _, 1 # 2)
                                       (base (Sample.device 20 22)))
                             (Sample.device 20 22)]> (runtime Sample.world0))
              (Sample.device 20 22) "temperature" 20)
    as (d' & v' & H1 & H2 & H3).
  - reflexivity.
  - reflexivity.
  - reflexivity.
  - discriminate.
  - discriminate.
  - unfold Num.unit_draw; split; [discriminate | reflexivity].
  - exists d', v'. exact (conj eq_refl (conj H1 (conj H2 H3))).
Defined.

(** C2, as stated, fails: with a baseline temperature of -100, which lies
    in [-1000, 10000], and every draw at one half, the night-mode step
    raises the baseline to -97.5. *)
Lemma night_drift_raises_negative_baseline :
  ∃ rt' d' v',
    runtime Sample.world0 !! "dev3" = Some (Sample.device (-100) 22)
    ∧ base (Sample.device (-100) 22) !! "temperature" = Some (-100)%Q
    ∧ ((-1000) <= -100)%Q ∧ (-100 <= 10000)%Q ∧ Num.unit_draw (1 # 2)
    ∧ apply_hourly_drift_for_device "dev3" false (λ _, 1 # 2)
        (runtime Sample.world0) = Ok rt'
    ∧ rt' !! "dev3" = Some d'
    ∧ base d' !! "temperature" = Some v'
    ∧ (v' == -97.5)%Q
    ∧ ¬ (v' <= -100)%Q.
Proof.
  eexists _, _, _.
  split; [reflexivity |]. split; [reflexivity |].
  split; [discriminate |]. split; [discriminate |].
  split; [split; [discriminate | reflexivity] |].
  split; [reflexivity |]. split; [apply lookup_insert_eq |].
  split; [cbn [base set_base]; rewrite drift_base_lookup; reflexivity |].
  split; [reflexivity |]. intros H. by vm_compute in H.
Qed.

(** ** One iteration as a whole *)

Lemma drift_fired_app (evs1 evs2 : list event) :
  drift_fired (evs1 ++ evs2) = drift_fired evs1 || drift_fired evs2.
Proof. apply existsb_app. Qed.

(** What a returning iteration did to the module-level dictionaries. *)
Lemma tick_spec (did : string) (client : bool) (e : tick_env) (w w' : world)
    (evs : list event) :
  tick did client e w = Ok (w', evs) →
  ∃ d fl last new,
    runtime w !! did = Some d
    ∧ regime (now e) (sunrise_local_naive e) (sunset_local_naive e)
             (activity_end d) = Ok fl
    ∧ last_drift_hour w !! did = Some last
    ∧ let fired := bool_decide (last ≠ Some (Clock.hour (now e))) in
      let b := if fired
               then drift_base (is_effective_day fl) (drift_draw e) (base d)
               else base d in
      synthesize fl e b = Ok new
      ∧ runtime w' = <[did := set_state (new ∪ state d) (set_base b d)]> (runtime w)
      ∧ last_drift_hour w' =
          (if fired then <[did := Some (Clock.hour (now e))]> (last_drift_hour w)
           else last_drift_hour w)
      ∧ regions w' = regions w
      ∧ drift_fired evs = fired.
Proof.
  intros H. apply tick_inv in H as (w1 & evs1 & p & evs2 & Hsim & Hsend & ->).
  pose proof (send_no_drift _ _ _ _ _ _ _ Hsend) as Hno.
  apply send_frame in Hsend as (-> & -> & ->).
  apply simulate_inv in Hsim
    as (d & fl & last & new & region & Hd & Hfl & Hlast & _ & Hnew & _ & -> & ->).
  exists d, fl, last, new. cbv zeta. cbn [runtime last_drift_hour regions].
  rewrite drift_fired_app, Hno, orb_false_r.
  repeat split; try done.
  by case_bool_decide.
Qed.

(** An iteration leaves the device booted. *)
Lemma tick_booted (did : string) (client : bool) (e : tick_env) (w w' : world)
    (evs : list event) :
  tick did client e w = Ok (w', evs) → booted did w → booted did w'.
Proof.
  intros H (d0 & Hd0 & Hkeys & Hae & Hlast0 & Hreg).
  apply tick_spec in H
    as (d & fl & last & new & Hd & _ & Hlast & _ & Hrt & Hl & Hr & _).
  simplify_eq. eexists. rewrite Hrt, Hl, Hr.
  split; [apply lookup_insert_eq |]. cbn [base set_state set_base activity_end].
  split; [| split; [done | split; [| done]]].
  - intros k Hk. destruct (Hkeys k Hk) as [v Hv].
    case_bool_decide; [| by eexists].
    rewrite drift_base_lookup, Hv. by eexists.
  - case_bool_decide; [| by rewrite Hlast].
    rewrite lookup_insert_eq. by eexists.
Qed.

(** The loop keeps running as long as the clock stays sane. *)
Lemma device_loop_total (did : string) (client : bool) (envs : list tick_env)
    (w : world) :
  booted did w → Forall (λ e, wall_clock (now e)) envs →
  ∃ w' trace, device_loop did client envs w = Ok (w', trace).
Proof.
  intros Hb Hc. revert w Hb.
  induction Hc as [| e es He Hes IH]; intros w Hb; simpl.
  - eauto.
  - destruct (tick_total did client e w Hb He) as [[w1 evs] Htick].
    rewrite Htick. simpl.
    destruct (IH w1 (tick_booted _ _ _ _ _ _ Htick Hb)) as (w2 & trace & Hloop).
    rewrite Hloop. simpl. eauto.
Qed.

Lemma device_loop_cons (did : string) (client : bool) (e : tick_env)
    (es : list tick_env) (w w' : world) (trace : list (list event)) :
  device_loop did client (e :: es) w = Ok (w', trace) →
  ∃ w1 evs trace', tick did client e w = Ok (w1, evs)
                 ∧ device_loop did client es w1 = Ok (w', trace')
                 ∧ trace = evs :: trace'.
Proof.
  simpl. intros H.
  apply bind_Ok in H as ([w1 evs] & Htick & H).
  apply bind_Ok in H as ([w2 trace'] & Hloop & H).
  injection H as <- <-. eauto 10.
Qed.

(** C5.  Over any run of a device's loop, the hourly drift is applied on
    an iteration exactly when the hour of the day differs from the
    recorded [last_drift_hour]: on the first iteration of the run that is
    the value the run starts with, afterwards it is the hour of the
    preceding iteration, since every iteration leaves its hour recorded.
    Hence two successive iterations in the same hour never both drift. *)
Theorem drift_once_per_hour (did : string) (client : bool)
    (envs : list tick_env) (w w' : world) (trace : list (list event)) :
  device_loop did client envs w = Ok (w', trace) →
  length trace = length envs
  ∧ (∀ e evs, envs !! 0%nat = Some e → trace !! 0%nat = Some evs →
       (drift_fired evs = true ↔
          last_drift_hour w !! did ≠ Some (Some (Clock.hour (now e)))))
  ∧ (∀ i e0 e evs,
       envs !! i = Some e0 → envs !! S i = Some e → trace !! S i = Some evs →
       (drift_fired evs = true ↔ Clock.hour (now e) ≠ Clock.hour (now e0)))
  ∧ (∀ e, last envs = Some e →
       last_drift_hour w' !! did = Some (Some (Clock.hour (now e)))).
Proof.
  revert w trace. induction envs as [| e0 es IH]; intros w trace H.
  - injection H as <- <-. repeat split; intros; simplify_eq; done.
  - apply device_loop_cons in H as (w1 & evs0 & trace' & Htick & Hloop & ->).
    destruct (IH _ _ Hloop) as (Hlen & Hfirst & Hnext & Hlast).
    apply tick_spec in Htick
      as (d & fl & l & new & _ & _ & Hl & _ & _ & Hl1 & _ & Hfired).
    assert (Hrec : last_drift_hour w1 !! did = Some (Some (Clock.hour (now e0)))).
    { rewrite Hl1. case_bool_decide as Hc; [apply lookup_insert_eq |].
      by rewrite Hl, Hc. }
    split; [simpl; by rewrite Hlen |].
    split; [| split].
    + intros e evs [= <-] [= <-]. rewrite Hfired, Hl, bool_decide_eq_true.
      split; congruence.
    + intros [| i] e1 e evs He1 He Hevs; simpl in *.
      * injection He1 as <-.
        rewrite (Hfirst e evs He Hevs), Hrec. split; congruence.
      * by apply (Hnext i e1 e evs).
    + intros e He. destruct es as [| e1 es'].
      * injection Hloop as <- <-. injection He as <-. exact Hrec.
      * apply Hlast. exact He.
Qed.

Lemma drift_once_per_hour_witness :
  ∃ w' trace,
    device_loop "dev1" false [Sample.env_at 14 0; Sample.env_at 14 30]
      Sample.world0 = Ok (w', trace)
    ∧ ∀ evs, trace !! 1%nat = Some evs → drift_fired evs ≠ true.
Proof.
  destruct (device_loop_total "dev1" false
              [Sample.env_at 14 0; Sample.env_at 14 30] Sample.world0)
    as (w' & trace & Hloop).
  - apply Sample_booted. rewrite !elem_of_cons. auto.
  - repeat constructor; apply Sample_clock; lia.
  - exists w', trace. split; [exact Hloop |].
    intros evs Hevs Hfired.
    destruct (drift_once_per_hour _ _ _ _ _ _ Hloop) as (_ & _ & Hnext & _).
    apply (Hnext 0%nat (Sample.env_at 14 0) (Sample.env_at 14 30) evs
             eq_refl eq_refl Hevs) in Hfired.
    by apply Hfired.
Defined.

(** ** Baseline and current readings *)

(** The forward reading of [simulate]: given what its steps return, the
    iteration returns the assembled result. *)
Lemma simulate_intro (did : string) (e : tick_env) (w : world) (d : device_rt)
    (fl : flags) (last : option Z) (region : gmap string json)
    (new : gmap string Q) (p : payload) :
  runtime w !! did = Some d →
  regime (now e) (sunrise_local_naive e) (sunset_local_naive e)
         (activity_end d) = Ok fl →
  last_drift_hour w !! did = Some last →
  regions w !! did = Some region →
  let fired := bool_decide (last ≠ Some (Clock.hour (now e))) in
  let b := if fired
           then drift_base (is_effective_day fl) (drift_draw e) (base d)
           else base d in
  let d' := set_state (new ∪ state d) (set_base b d) in
  synthesize fl e b = Ok new →
  make_payload did fl e region d' = Ok p →
  simulate did e w =
    Ok ({| regions := regions w;
           runtime := <[did := d']> (runtime w);
           last_drift_hour :=
             if fired
             then <[did := Some (Clock.hour (now e))]> (last_drift_hour w)
             else last_drift_hour w;
           hub := hub w; log_dir := log_dir w |},
        if fired then [DriftApplied did (is_effective_day fl) (now e)] else [],
        p).
Proof.
  intros Hd Hfl Hlast Hreg fired b d' Hnew Hp.
  unfold simulate, getitem. rewrite Hd. simpl. rewrite Hfl. simpl.
  rewrite Hlast. simpl. subst d' b fired.
  case_bool_decide as Hfire; simpl.
  - unfold apply_hourly_drift_for_device, getitem. rewrite Hd. simpl.
    rewrite lookup_insert_eq. simpl. rewrite Hnew. simpl.
    rewrite Hreg. simpl. rewrite Hp. simpl.
    unfold set_runtime, set_last_drift_hour. simpl.
    by rewrite insert_insert_eq.
  - rewrite Hd. simpl. rewrite Hnew. simpl. rewrite Hreg. simpl.
    assert (set_base (base d) d = d) as E by by destruct d.
    rewrite E in Hp. rewrite Hp. simpl. by destruct w.
Qed.

(** The payload reads the six metric keys of the state and the activity
    end, nothing else of the device record. *)
Lemma make_payload_ext (did : string) (fl : flags) (e : tick_env)
    (region : gmap string json) (d1 d2 : device_rt) :
  (∀ k, k ∈ METRICS → state d1 !! k = state d2 !! k) →
  activity_end d1 = activity_end d2 →
  make_payload did fl e region d1 = make_payload did fl e region d2.
Proof.
  intros Hk Hae. unfold make_payload, getitem. cbv zeta.
  rewrite (Hk "temperature"), (Hk "humidity"), (Hk "co2"), (Hk "no2"),
    (Hk "pm25"), (Hk "pm10"), Hae by set_solver.
  reflexivity.
Qed.

Lemma synthesized_overrides (fl : flags) (e : tick_env) (b new s : gmap string Q)
    (k : string) :
  synthesize fl e b = Ok new → k ∈ METRICS → (new ∪ s) !! k = new !! k.
Proof.
  intros Hnew Hk.
  destruct (proj2 (synthesize_keys fl e b new k Hnew) Hk) as [v Hv].
  rewrite Hv. by apply lookup_union_Some_l.
Qed.

(** What the output step prints does not depend on the process state. *)
Lemma send_events (did : string) (client : bool) (e : tick_env) (p : payload)
    (w1 w2 : world) :
  (send did client e p w1).2 = (send did client e p w2).2.
Proof.
  unfold send, log_payload.
  by destruct client, (send_raises e), LOG_MODE, (log_raises e).
Qed.

(** C7.  In every iteration the baseline of the device changes only
    through the hourly drift: it is the drifted baseline when the drift
    was applied and the old baseline otherwise, so synthesis leaves it
    alone.  The new current readings are computed from that (post-drift)
    baseline and overwrite all six keys of the current mapping; whatever
    the previous current readings were, the iteration prints the same
    lines and ends with the same baseline and the same six readings.
    Nothing else of the device record, and no other device, is written. *)
Theorem synthesis_reads_baseline_writes_current (did : string) (client : bool)
    (e : tick_env) (w w' : world) (evs : list event) (d : device_rt) :
  tick did client e w = Ok (w', evs) →
  runtime w !! did = Some d →
  ∃ d' fl new,
    runtime w' !! did = Some d'
    ∧ regime (now e) (sunrise_local_naive e) (sunset_local_naive e)
             (activity_end d) = Ok fl
    ∧ base d' = (if drift_fired evs
                 then drift_base (is_effective_day fl) (drift_draw e) (base d)
                 else base d)
    ∧ synthesize fl e (base d') = Ok new
    ∧ state d' = new ∪ state d
    ∧ (∀ k, k ∈ METRICS → state d' !! k = new !! k)
    ∧ lat d' = lat d ∧ lon d' = lon d ∧ activity_end d' = activity_end d
    ∧ (∀ did2, did2 ≠ did → runtime w' !! did2 = runtime w !! did2)
    ∧ (∀ s0, ∃ w0' d0',
         tick did client e (with_state did s0 w) = Ok (w0', evs)
         ∧ runtime w0' !! did = Some d0'
         ∧ base d0' = base d'
         ∧ ∀ k, k ∈ METRICS → state d0' !! k = state d' !! k).
Proof.
  intros Htick Hd.
  apply tick_inv in Htick as (w1 & evs1 & p & evs2 & Hsim & Hsend & ->).
  pose proof (send_no_drift _ _ _ _ _ _ _ Hsend) as Hno.
  apply simulate_inv in Hsim
    as (d1 & fl & last & new & region & Hd1 & Hfl & Hlast & Hreg
        & Hnew & Hp & -> & ->).
  assert (d1 = d) as -> by congruence.
  set (fired := bool_decide (last ≠ Some (Clock.hour (now e)))) in *.
  set (b := if fired then _ else _) in *.
  set (w1 := Build_world _ _ _ _ _) in *.
  pose proof (send_frame _ _ _ _ _ _ _ Hsend) as (Hrt & _ & _).
  assert (Hfired : drift_fired
                     ((if fired
                       then [DriftApplied did (is_effective_day fl) (now e)]
                       else []) ++ evs2) = fired).
  { rewrite drift_fired_app, Hno, orb_false_r. by destruct fired. }
  exists (set_state (new ∪ state d) (set_base b d)), fl, new.
  split; [rewrite Hrt; apply lookup_insert_eq |].
  split; [exact Hfl |].
  split; [by rewrite Hfired |].
  split; [exact Hnew |].
  split; [reflexivity |].
  split; [intros k Hk; by apply (synthesized_overrides fl e b) |].
  split; [reflexivity |]. split; [reflexivity |]. split; [reflexivity |].
  split; [intros did2 Hne; rewrite Hrt; by apply lookup_insert_ne |].
  intros s0.
  set (d0' := set_state (new ∪ s0) (set_base b (set_state s0 d))).
  set (w0 := {| regions := regions w;
                runtime := <[did := d0']> (alter (set_state s0) did (runtime w));
                last_drift_hour :=
                  if fired
                  then <[did := Some (Clock.hour (now e))]> (last_drift_hour w)
                  else last_drift_hour w;
                hub := hub w; log_dir := log_dir w |}).
  assert (Hsim0 : simulate did e (with_state did s0 w) =
            Ok (w0,
                if fired then [DriftApplied did (is_effective_day fl) (now e)]
                else [],
                p)).
  { apply (simulate_intro did e (with_state did s0 w) (set_state s0 d) fl last
             region new p); try done.
    - unfold with_state. cbn [runtime set_runtime].
      by rewrite lookup_alter_eq, Hd.
    - rewrite <- Hp. apply make_payload_ext; [| reflexivity].
      intros k Hk. cbn [state set_state set_base].
      by rewrite !(synthesized_overrides fl e b new _ k Hnew Hk). }
  unfold tick. rewrite Hsim0. simpl.
  destruct (send did client e p w0) as [w0' evs0] eqn:Hsend0.
  pose proof (send_events did client e p w0 w1) as Hev.
  rewrite Hsend0, Hsend in Hev. simpl in Hev. rewrite Hev.
  apply send_frame in Hsend0 as (Hrt0 & _ & _).
  exists w0', d0'.
  split; [reflexivity |].
  split; [rewrite Hrt0; apply lookup_insert_eq |].
  split; [reflexivity |].
  intros k Hk. cbn [state set_state set_base d0'].
  by rewrite !(synthesized_overrides fl e b new _ k Hnew Hk).
Qed.

Lemma synthesis_reads_baseline_writes_current_witness :
  ∃ w' evs d',
    tick "dev1" false (Sample.env_at 14 30) Sample.world0 = Ok (w', evs)
    ∧ runtime w' !! "dev1" = Some d'
    ∧ activity_end d' = 22%Z
    ∧ ∀ did2, did2 ≠ "dev1" →
        runtime w' !! did2 = runtime Sample.world0 !! did2.
Proof.
  destruct (tick_total "dev1" false (Sample.env_at 14 30) Sample.world0)
    as [[w' evs] Htick].
  - apply Sample_booted. rewrite !elem_of_cons. auto.
  - apply Sample_clock; lia.
  - destruct (synthesis_reads_baseline_writes_current "dev1" false
                (Sample.env_at 14 30) Sample.world0 w' evs
                (Sample.device 20 22) Htick eq_refl)
      as (d' & fl & new & Hd' & _ & _ & _ & _ & _ & _ & _ & Hae & Hothers & _).
    exists w', evs, d'.
    exact (conj Htick (conj Hd' (conj Hae Hothers))).
Defined.

(** Start-up leaves the slot of every device it loaded unset. *)
Lemma initial_slot_unset (rt : gmap string device_rt) (did : string)
    (d : device_rt) :
  rt !! did = Some d → initial_last_drift_hour rt !! did = Some None.
Proof.
  intros Hd. unfold initial_last_drift_hour. by rewrite lookup_fmap, Hd.
Qed.

(** C9.  The first iteration of a device, the one that finds its
    [last_drift_hour] slot still [None] as start-up left it, always
    applies the hourly drift, whatever the clock reads and whatever the
    other devices have done meanwhile: every key of the baseline gets the
    clamped day-mode or night-mode value computed from its old value, the
    readings the iteration stores are synthesized from that drifted
    baseline, and the hour is recorded. *)
Theorem first_tick_always_drifts (did : string) (client : bool) (e : tick_env)
    (w w' : world) (evs : list event) (d : device_rt) :
  last_drift_hour w !! did = Some None →
  runtime w !! did = Some d →
  tick did client e w = Ok (w', evs) →
  drift_fired evs = true
  ∧ ∃ d' fl new,
      runtime w' !! did = Some d'
      ∧ regime (now e) (sunrise_local_naive e) (sunset_local_naive e)
               (activity_end d) = Ok fl
      ∧ base d' = drift_base (is_effective_day fl) (drift_draw e) (base d)
      ∧ (∀ k, base d' !! k =
           (λ v, if is_effective_day fl
                 then Num.clamp
                        (v + Num.uniform (- (v * 0.07)) (v * 0.07)
                               (drift_draw e k))
                        (-1000) 10000
                 else Num.clamp
                        (v - Num.uniform 0 (v * 0.05) (drift_draw e k))
                        (-1000) 10000)%Q <$> base d !! k)
      ∧ synthesize fl e (base d') = Ok new
      ∧ (∀ k, k ∈ METRICS → state d' !! k = new !! k)
      ∧ last_drift_hour w' !! did = Some (Some (Clock.hour (now e))).
Proof.
  intros Hinit Hd Htick.
  apply tick_spec in Htick
    as (d0 & fl & last & new & Hd0 & Hfl & Hlast & Hnew & Hrt & Hl & _ & Hfired).
  assert (d0 = d) as -> by congruence.
  assert (last = None) as -> by congruence.
  rewrite bool_decide_eq_true_2 in Hnew, Hrt, Hl, Hfired by done.
  split; [exact Hfired |].
  eexists _, fl, new. rewrite Hrt, Hl.
  split; [apply lookup_insert_eq |].
  split; [exact Hfl |].
  split; [reflexivity |].
  split.
  { intros k. cbn [base set_state set_base]. rewrite drift_base_lookup.
    unfold drift_value. by destruct (is_effective_day fl). }
  split; [exact Hnew |].
  split; [| apply lookup_insert_eq].
  intros k Hk. cbn [state set_state].
  by apply (synthesized_overrides fl e _ new _ k Hnew).
Qed.

(** "dev2" runs its first iteration after "dev1" has already run one. *)
Lemma first_tick_always_drifts_witness :
  ∃ w1 evs1 w2 evs2,
    tick "dev1" true (Sample.env_at 0 0) Sample.world0 = Ok (w1, evs1)
    ∧ tick "dev2" true (Sample.env_at 0 0) w1 = Ok (w2, evs2)
    ∧ drift_fired evs2 = true.
Proof.
  destruct (tick_total "dev1" true (Sample.env_at 0 0) Sample.world0)
    as [[w1 evs1] Htick1].
  { apply Sample_booted. rewrite !elem_of_cons. auto. }
  { apply Sample_clock; lia. }
  pose proof (tick_spec _ _ _ _ _ _ Htick1)
    as (d0 & fl0 & last0 & new0 & _ & _ & _ & _ & Hrt1 & Hl1 & Hr1 & _).
  assert (Hd2 : runtime w1 !! "dev2" = Some (Sample.device 20 0)).
  { rewrite Hrt1. by rewrite lookup_insert_ne. }
  assert (Hs2 : last_drift_hour w1 !! "dev2" = Some None).
  { rewrite Hl1. by case_bool_decide; [rewrite lookup_insert_ne |]. }
  destruct (tick_total "dev2" true (Sample.env_at 0 0) w1)
    as [[w2 evs2] Htick2].
  { exists (Sample.device 20 0). rewrite Hd2, Hs2, Hr1.
    split; [done |].
    destruct (Sample_booted "dev2") as (d & Hd & Hkeys & Hae & _ & Hreg);
      [rewrite !elem_of_cons; auto |].
    injection Hd as <-. by repeat split. }
  { apply Sample_clock; lia. }
  exists w1, evs1, w2, evs2. split; [exact Htick1 |]. split; [exact Htick2 |].
  exact (proj1 (first_tick_always_drifts "dev2" true (Sample.env_at 0 0)
                  w1 w2 evs2 (Sample.device 20 0) Hs2 Hd2 Htick2)).
Defined.

(** ** Output *)

(** When [send_message] raises, the [try] block is left at once. *)
Lemma send_publish_failure (did : string) (e : tick_env) (p : payload)
    (w : world) :
  send_raises e = true → send did true e p w = (w, [SendFailed did]).
Proof. unfold send. by intros ->. Qed.

(** Without a hub client the payload is printed and logged. *)
Lemma send_local (did : string) (e : tick_env) (p : payload) (w : world) :
  log_raises e = false →
  send did false e p w =
    (set_log_dir
       (<[Clock.ordinal (log_now e) :=
            default [] (log_dir w !! Clock.ordinal (log_now e)) ++ [p]]>
          (log_dir w)) w,
     [SentLocal did p]).
Proof. unfold send, log_payload. by intros ->. Qed.

Lemma tick_publish_failure (did : string) (e : tick_env) (w w' : world)
    (evs : list event) :
  send_raises e = true →
  tick did true e w = Ok (w', evs) →
  log_dir w' = log_dir w ∧ hub w' = hub w ∧ last evs = Some (SendFailed did).
Proof.
  intros Hfail H.
  apply tick_inv in H as (w1 & evs1 & p & evs2 & Hsim & Hsend & ->).
  rewrite send_publish_failure in Hsend by done. injection Hsend as <- <-.
  apply simulate_inv in Hsim as (? & ? & ? & ? & ? & _ & _ & _ & _ & _ & _ & _ & ->).
  by rewrite last_snoc.
Qed.

Lemma device_loop_publish_failure (did : string) (envs : list tick_env)
    (w w' : world) (trace : list (list event)) :
  Forall (λ e, send_raises e = true) envs →
  device_loop did true envs w = Ok (w', trace) →
  log_dir w' = log_dir w ∧ length trace = length envs.
Proof.
  intros Hfail. revert w trace.
  induction Hfail as [| e es He Hes IH]; intros w trace H.
  - by injection H as <- <-.
  - apply device_loop_cons in H as (w1 & evs & trace' & Htick & Hloop & ->).
    apply tick_publish_failure in Htick as (<- & _ & _); [| done].
    destruct (IH _ _ Hloop) as [-> Hlen]. simpl. by rewrite Hlen.
Qed.

(** C1 fails on the code.  With a hub client whose [send_message]
    raises on both iterations, while the log write itself would succeed,
    the loop of "dev1" catches the error and goes on to the second
    iteration, but no payload reaches the daily log; the same first
    iteration without a hub client does log its payload. *)
Theorem publish_failure_skips_log :
  Forall (λ e, send_raises e = true ∧ log_raises e = false)
    [Sample.env_at 14 0; Sample.env_at 14 30]
  ∧ (∃ w' trace,
       device_loop "dev1" true [Sample.env_at 14 0; Sample.env_at 14 30]
         Sample.world0 = Ok (w', trace)
       ∧ length trace = 2%nat
       ∧ log_dir w' = ∅)
  ∧ (∃ w' evs p,
       tick "dev1" false (Sample.env_at 14 0) Sample.world0 = Ok (w', evs)
       ∧ log_dir w' !! 739000%Z = Some [p]).
Proof.
  split; [repeat constructor |]. split.
  - destruct (device_loop_total "dev1" true
                [Sample.env_at 14 0; Sample.env_at 14 30] Sample.world0)
      as (w' & trace & Hloop).
    + apply Sample_booted. rewrite !elem_of_cons. auto.
    + repeat constructor; apply Sample_clock; lia.
    + exists w', trace. split; [exact Hloop |].
      apply device_loop_publish_failure in Hloop as [-> ->];
        [done | by repeat constructor].
  - destruct (simulate_total "dev1" (Sample.env_at 14 0) Sample.world0)
      as [[[w1 evs1] p] Hsim].
    + apply Sample_booted. rewrite !elem_of_cons. auto.
    + apply Sample_clock; lia.
    + unfold tick. rewrite Hsim. cbn -[send].
      rewrite send_local by done.
      eexists _, _, p. split; [reflexivity |].
      apply simulate_inv in Hsim as (? & ? & ? & ? & ? & _ & _ & _ & _ & _ & _ & _ & ->).
      cbn [log_dir set_log_dir]. apply lookup_insert_eq.
Qed.

(** ** Start-up *)

Section StartupFacts.

Variable parse_float : string → option Q.
Variable parse_int : string → option Z.

Lemma float_items_total (r : gmap string json) (keys : list string) :
  (∀ k, k ∈ keys → ∃ j q, r !! k = Some j ∧ float parse_float j = Ok q) →
  ∃ m, float_items parse_float r keys = Ok m.
Proof.
  induction keys as [| k ks IH]; intros H; simpl; [eauto |].
  destruct (H k) as (j & q & Hj & Hq); [left |].
  destruct IH as [m Hm]; [intros k' Hk'; apply H; by right |].
  unfold getitem. rewrite Hj. simpl. rewrite Hq. simpl. rewrite Hm. simpl. eauto.
Qed.

Lemma float_items_missing (r : gmap string json) (keys : list string)
    (k : string) :
  k ∈ keys → r !! k = None → ∃ x, float_items parse_float r keys = Raise x.
Proof.
  intros Hin Hk. induction keys as [| k0 ks IH]; [by apply elem_of_nil in Hin |].
  simpl. unfold getitem.
  apply elem_of_cons in Hin as [<- | Hin].
  - rewrite Hk. simpl. eauto.
  - destruct (r !! k0) as [j |]; simpl; [| eauto].
    destruct (float parse_float j); simpl; [| eauto].
    destruct (IH Hin) as [x ->]. simpl. eauto.
Qed.

(** C10.  A region entry without [activity_end] is loaded as if the
    field were 22: whenever its entry is built the activity end is 22, and
    it is built as soon as the six baselines, [lat] and [lon] are present
    and convertible.  An entry that lacks one of those eight keys makes
    start-up raise. *)
Theorem missing_activity_end_defaults (r : gmap string json) :
  r !! "activity_end" = None →
  (∀ d, runtime_entry parse_float parse_int r = Ok d → activity_end d = 22%Z)
  ∧ ((∀ k, k ∈ REQUIRED →
        ∃ j q, r !! k = Some j ∧ float parse_float j = Ok q) →
     ∃ d, runtime_entry parse_float parse_int r = Ok d ∧ activity_end d = 22%Z)
  ∧ (∀ k, k ∈ REQUIRED → r !! k = None →
       ∃ x, runtime_entry parse_float parse_int r = Raise x).
Proof.
  intros Hae.
  assert (H22 : ∀ d, runtime_entry parse_float parse_int r = Ok d →
                  activity_end d = 22%Z).
  { intros d H. unfold runtime_entry in H. rewrite Hae in H. peel H.
    injection H as <-. simpl in *. by injection Ha4 as <-. }
  split; [exact H22 |]. split.
  - intros Hreq.
    destruct (float_items_total r METRICS) as [b Hb].
    { intros k Hk. apply Hreq. unfold REQUIRED. apply elem_of_app. by left. }
    destruct (Hreq "lat") as (jlat & vlat & Hlat & Hvlat);
      [apply elem_of_app; right; by left |].
    destruct (Hreq "lon") as (jlon & vlon & Hlon & Hvlon);
      [apply elem_of_app; right; right; by left |].
    assert (Hrun : runtime_entry parse_float parse_int r =
              Ok {| base := b; state := b; lat := vlat; lon := vlon;
                    activity_end := 22 |}).
    { unfold runtime_entry, getitem. rewrite Hb. simpl.
      rewrite Hlat. simpl. rewrite Hvlat. simpl.
      rewrite Hlon. simpl. rewrite Hvlon. simpl.
      rewrite Hae. reflexivity. }
    eexists. split; [exact Hrun | reflexivity].
  - intros k Hk Hnone. unfold REQUIRED in Hk.
    apply elem_of_app in Hk as [Hk | Hk].
    + destruct (float_items_missing r METRICS k Hk Hnone) as [x Hx].
      unfold runtime_entry. rewrite Hx. simpl. eauto.
    + unfold runtime_entry, getitem.
      destruct (float_items parse_float r METRICS); simpl; [| eauto].
      rewrite !elem_of_cons, elem_of_nil in Hk.
      destruct Hk as [-> | [-> | []]].
      * rewrite Hnone. simpl. eauto.
      * destruct (r !! "lat") as [j |]; simpl; [| eauto].
        destruct (float parse_float j); simpl; [| eauto].
        rewrite Hnone. simpl. eauto.
Qed.

End StartupFacts.

Lemma missing_activity_end_defaults_witness :
  ∃ d, runtime_entry Sample.no_float Sample.no_int Sample.cairo = Ok d
     ∧ activity_end d = 22%Z.
Proof.
  apply (missing_activity_end_defaults Sample.no_float Sample.no_int Sample.cairo).
  - reflexivity.
  - intros k Hk. unfold REQUIRED, METRICS in Hk. simpl in Hk.
    rewrite !elem_of_cons, elem_of_nil in Hk.
    destruct Hk as [->|[->|[->|[->|[->|[->|[->|[->|[]]]]]]]]];
      eexists _, _; (split; [reflexivity | reflexivity]).
Defined.

(* ===================================================================== *)
(** * Part III.  Further properties of the code                           *)
(* ===================================================================== *)

Import Inv.

(** ** The output step *)

(** [simulate] looks at neither outcome flag. *)
Lemma simulate_with_outcome (did : string) (s l : bool) (e : tick_env)
    (w : world) :
  simulate did (with_outcome s l e) w = simulate did e w.
Proof. reflexivity. Qed.

(** A returning [simulate] leaves the hub and the log files alone. *)
Lemma simulate_output_frame (did : string) (e : tick_env) (w w' : world)
    (evs : list event) (p : payload) :
  simulate did e w = Ok (w', evs, p) →
  hub w' = hub w ∧ log_dir w' = log_dir w.
Proof.
  intros H.
  apply simulate_inv in H as (? & ? & ? & ? & ? & _ & _ & _ & _ & _ & _ & _ & ->).
  done.
Qed.

(** X1.  A failing log write is caught inside [log_payload]: when the
    hub accepts the message and the log write raises, the iteration
    still returns, the hub has received the payload, the log files are
    unchanged and the last line printed is the log failure. *)
Theorem log_failure_is_caught (did : string) (e : tick_env) (w : world) :
  booted did w → wall_clock (now e) →
  send_raises e = false → log_raises e = true →
  ∃ w' evs p,
    tick did true e w = Ok (w', evs)
    ∧ hub w' = hub w ++ [p]
    ∧ log_dir w' = log_dir w
    ∧ last evs = Some LogFailed.
Proof.
  intros Hb Hc Hsend Hlog.
  destruct (simulate_total did e w Hb Hc) as [[[w1 evs1] p] Hsim].
  destruct (simulate_output_frame _ _ _ _ _ _ Hsim) as [Hhub Hdir].
  unfold tick. rewrite Hsim. cbn -[send].
  unfold send, log_payload. rewrite Hsend, Hlog. simpl.
  eexists _, _, p. split; [reflexivity |]. simpl.
  rewrite Hhub, Hdir. split; [done |]. split; [done |].
  change (evs1 ++ [SentHub did p; LogFailed])
    with (evs1 ++ [SentHub did p] ++ [LogFailed]).
  by rewrite app_assoc, last_snoc.
Qed.

Lemma log_failure_is_caught_witness :
  ∃ w' evs p,
    tick "dev1" true (with_outcome false true (Sample.env_at 14 0))
      Sample.world0 = Ok (w', evs)
    ∧ hub w' = hub Sample.world0 ++ [p]
    ∧ log_dir w' = log_dir Sample.world0
    ∧ last evs = Some LogFailed.
Proof.
  apply (log_failure_is_caught "dev1"
           (with_outcome false true (Sample.env_at 14 0)) Sample.world0).
  - apply Sample_booted. rewrite !elem_of_cons. auto.
  - apply (Sample_clock 14 0); lia.
  - reflexivity.
  - reflexivity.
Defined.

(** X2.  When both output operations succeed, the payload handed to the
    hub is the one appended to the log: the hub grows by that payload and
    the file of the log date gets it as its new last line, after the
    lines it already had; the files of other dates are not touched. *)
Theorem delivered_payload_is_logged (did : string) (e : tick_env) (w : world) :
  booted did w → wall_clock (now e) →
  send_raises e = false → log_raises e = false →
  ∃ w' evs p,
    tick did true e w = Ok (w', evs)
    ∧ hub w' = hub w ++ [p]
    ∧ log_dir w' !! Clock.ordinal (log_now e) =
        Some (default [] (log_dir w !! Clock.ordinal (log_now e)) ++ [p])
    ∧ (∀ day, day ≠ Clock.ordinal (log_now e) →
         log_dir w' !! day = log_dir w !! day)
    ∧ last evs = Some (SentHub did p).
Proof.
  intros Hb Hc Hsend Hlog.
  destruct (simulate_total did e w Hb Hc) as [[[w1 evs1] p] Hsim].
  destruct (simulate_output_frame _ _ _ _ _ _ Hsim) as [Hhub Hdir].
  unfold tick. rewrite Hsim. cbn -[send].
  unfold send, log_payload. rewrite Hsend, Hlog. simpl.
  eexists _, _, p. split; [reflexivity |]. simpl.
  rewrite Hhub, Hdir. split; [done |].
  split; [apply lookup_insert_eq |].
  split; [intros day Hday; by apply lookup_insert_ne |].
  by rewrite last_snoc.
Qed.

Lemma delivered_payload_is_logged_witness :
  ∃ w' evs p,
    tick "dev1" true (with_outcome false false (Sample.env_at 14 0))
      Sample.world0 = Ok (w', evs)
    ∧ hub w' = [p]
    ∧ log_dir w' !! 739000%Z = Some [p].
Proof.
  destruct (delivered_payload_is_logged "dev1"
              (with_outcome false false (Sample.env_at 14 0)) Sample.world0)
    as (w' & evs & p & Htick & Hhub & Hlog & _).
  - apply Sample_booted. rewrite !elem_of_cons. auto.
  - apply (Sample_clock 14 0); lia.
  - reflexivity.
  - reflexivity.
  - exists w', evs, p. exact (conj Htick (conj Hhub Hlog)).
Defined.

(** X3.  A device without a hub client never sends anything: the hub is
    unchanged whatever [send_raises] says, and the payload is logged
    whenever the log write succeeds. *)
Theorem local_only_never_sends (did : string) (e : tick_env) (w w' : world)
    (evs : list event) :
  tick did false e w = Ok (w', evs) →
  hub w' = hub w
  ∧ ∃ p, (if log_raises e
          then log_dir w' = log_dir w ∧ last evs = Some LogFailed
          else log_dir w' !! Clock.ordinal (log_now e) =
                 Some (default [] (log_dir w !! Clock.ordinal (log_now e)) ++ [p])
               ∧ last evs = Some (SentLocal did p)).
Proof.
  intros H.
  apply tick_inv in H as (w1 & evs1 & p & evs2 & Hsim & Hsend & ->).
  destruct (simulate_output_frame _ _ _ _ _ _ Hsim) as [Hhub Hdir].
  unfold send, log_payload in Hsend. simpl in Hsend.
  destruct (log_raises e); injection Hsend as <- <-; simpl.
  - split; [done |]. exists p. split; [done |].
    change (evs1 ++ [SentLocal did p; LogFailed])
      with (evs1 ++ [SentLocal did p] ++ [LogFailed]).
    by rewrite app_assoc, last_snoc.
  - split; [done |]. exists p. rewrite Hdir.
    split; [apply lookup_insert_eq | by rewrite last_snoc].
Qed.

Lemma local_only_never_sends_witness :
  ∃ w' evs,
    tick "dev1" false (Sample.env_at 14 0) Sample.world0 = Ok (w', evs)
    ∧ hub w' = hub Sample.world0.
Proof.
  destruct (tick_total "dev1" false (Sample.env_at 14 0) Sample.world0)
    as [[w' evs] Htick].
  - apply Sample_booted. rewrite !elem_of_cons. auto.
  - apply Sample_clock; lia.
  - exists w', evs. split; [exact Htick |].
    exact (proj1 (local_only_never_sends _ _ _ _ _ Htick)).
Defined.

(** X4.  What the output step does, and whether it fails, has no effect
    on the simulation state: with any other client setting and any other
    outcome of the two output operations the iteration still returns,
    with the same [runtime], the same [last_drift_hour] and the same
    drift decision. *)
Theorem output_never_touches_simulation_state (did : string) (client : bool)
    (e : tick_env) (w w' : world) (evs : list event) :
  tick did client e w = Ok (w', evs) →
  ∀ client2 s l,
    ∃ w2 evs2,
      tick did client2 (with_outcome s l e) w = Ok (w2, evs2)
      ∧ runtime w2 = runtime w'
      ∧ last_drift_hour w2 = last_drift_hour w'
      ∧ drift_fired evs2 = drift_fired evs.
Proof.
  intros H client2 s l.
  apply tick_inv in H as (w1 & evs1 & p & evs2 & Hsim & Hsend & ->).
  unfold tick. rewrite simulate_with_outcome, Hsim. cbn -[send].
  destruct (send did client2 (with_outcome s l e) p w1) as [w2 evs3] eqn:Hsend2.
  exists w2, (evs1 ++ evs3). split; [reflexivity |].
  pose proof (send_no_drift _ _ _ _ _ _ _ Hsend) as Hn1.
  pose proof (send_no_drift _ _ _ _ _ _ _ Hsend2) as Hn2.
  apply send_frame in Hsend as (-> & -> & _).
  apply send_frame in Hsend2 as (-> & -> & _).
  by rewrite !drift_fired_app, Hn1, Hn2.
Qed.

Lemma output_never_touches_simulation_state_witness :
  ∃ w' evs w2 evs2,
    tick "dev1" true (Sample.env_at 14 0) Sample.world0 = Ok (w', evs)
    ∧ tick "dev1" false (with_outcome false false (Sample.env_at 14 0))
        Sample.world0 = Ok (w2, evs2)
    ∧ runtime w2 = runtime w'.
Proof.
  destruct (tick_total "dev1" true (Sample.env_at 14 0) Sample.world0)
    as [[w' evs] Htick].
  - apply Sample_booted. rewrite !elem_of_cons. auto.
  - apply Sample_clock; lia.
  - destruct (output_never_touches_simulation_state _ _ _ _ _ _ Htick
                false false false) as (w2 & evs2 & H2 & Hrt & _).
    exists w', evs, w2, evs2. exact (conj Htick (conj H2 Hrt)).
Defined.

(** ** Regime flags *)

(** The flags [regime] returns, in terms of the two datetimes it builds. *)
Lemma regime_inv (now sunrise sunset : Clock.datetime) (ae : Z) (fl : flags) :
  regime now sunrise sunset ae = Ok fl →
  ∃ stop,
    fl = {| is_after_sunset := Clock.ge now sunset;
            is_before_sunrise := Clock.lt now sunrise;
            is_after_activity_end := Clock.ge now stop;
            is_effective_day :=
              Clock.ge now (Clock.mkdt (Clock.ordinal now) 6 30 0 0)
              && Clock.lt now stop |}.
Proof.
  unfold regime. intros H.
  apply bind_Ok in H as (start & Hstart & H).
  apply bind_Ok in H as (stop0 & _ & H).
  apply bind_Ok in H as (stop & _ & H).
  injection H as <-. exists stop.
  unfold Clock.replace, ACTIVITY_START_HOUR, ACTIVITY_START_MIN in Hstart.
  simpl in Hstart. by injection Hstart as <-.
Qed.

(** X5.  The solar flags alone select the temperature and humidity
    adjustments: at night (after sunset or before sunrise) the
    temperature adjustment lies in [-3.5, -0.5] and the humidity
    adjustment in [0.5, 4.0]; by day they lie in [0.5, 2.5] and
    [-3.0, -0.5]. *)
Theorem solar_adjustments (fl : flags) (e : tick_env) :
  Num.unit_draw (temp_draw e) →
  Num.unit_draw (hum_draw e) →
  if is_after_sunset fl || is_before_sunrise fl then
    (-3.5 <= temp_adj fl e)%Q ∧ (temp_adj fl e <= -0.5)%Q
    ∧ (0.5 <= hum_adj fl e)%Q ∧ (hum_adj fl e <= 4.0)%Q
  else
    (0.5 <= temp_adj fl e)%Q ∧ (temp_adj fl e <= 2.5)%Q
    ∧ (-3.0 <= hum_adj fl e)%Q ∧ (hum_adj fl e <= -0.5)%Q.
Proof.
  intros Ht Hh. unfold temp_adj, hum_adj, is_night.
  destruct (is_after_sunset fl || is_before_sunrise fl).
  - destruct (NumFacts.uniform_bounds (-3.5) (-0.5) _ ltac:(lra) Ht).
    destruct (NumFacts.uniform_bounds 0.5 4.0 _ ltac:(lra) Hh). done.
  - destruct (NumFacts.uniform_bounds 0.5 2.5 _ ltac:(lra) Ht).
    destruct (NumFacts.uniform_bounds (-3.0) (-0.5) _ ltac:(lra) Hh). done.
Qed.

Lemma solar_adjustments_witness :
  (-3.5 <= temp_adj
             {| is_after_sunset := true; is_before_sunrise := false;
                is_after_activity_end := false; is_effective_day := true |}
             (Sample.env_at 20 0))%Q.
Proof.
  pose proof (solar_adjustments
                {| is_after_sunset := true; is_before_sunrise := false;
                   is_after_activity_end := false; is_effective_day := true |}
                (Sample.env_at 20 0)) as H.
  simpl in H. destruct H as (Hlo & _).
  - unfold Num.unit_draw; split; [discriminate | reflexivity].
  - unfold Num.unit_draw; split; [discriminate | reflexivity].
  - exact Hlo.
Defined.

(** X6.  The two activity flags exclude each other: an iteration is never
    both in the effective day and after the activity end. *)
Theorem effective_day_excludes_activity_end (now sunrise sunset : Clock.datetime)
    (ae : Z) (fl : flags) :
  regime now sunrise sunset ae = Ok fl →
  is_effective_day fl && is_after_activity_end fl = false.
Proof.
  intros H. apply regime_inv in H as [stop ->]. cbn [is_effective_day
    is_after_activity_end]. rewrite (ClockFacts.ge_negb_lt now stop).
  by destruct (Clock.ge now _), (Clock.lt now stop).
Qed.

Lemma effective_day_excludes_activity_end_witness :
  ∃ fl, regime (Sample.at_ 739000 23 30 0) (Sample.at_ 739000 6 5 0)
               (Sample.at_ 739000 18 40 0) 22 = Ok fl
      ∧ is_effective_day fl && is_after_activity_end fl = false.
Proof.
  eexists. split; [reflexivity |].
  apply (effective_day_excludes_activity_end (Sample.at_ 739000 23 30 0)
           (Sample.at_ 739000 6 5 0) (Sample.at_ 739000 18 40 0) 22).
  reflexivity.
Defined.

(** X7.  Outside the quiet period an iteration that is not in the
    effective day lies between sunrise and 06:30: the NO2 offset drawn
    from [-1.0, 2.0] is only ever used in that early window. *)
Theorem mild_no2_offset_window (now sunrise sunset : Clock.datetime)
    (ae : Z) (fl : flags) :
  Clock.valid now → Clock.valid sunrise →
  regime now sunrise sunset ae = Ok fl →
  is_after_activity_end fl || is_before_sunrise fl = false →
  is_effective_day fl = false →
  (Clock.instant sunrise ≤ Clock.instant now
   ∧ Clock.instant now < activity_start_instant now)%Z.
Proof.
  intros Hnow Hrise H Hquiet Hday.
  apply regime_inv in H as [stop ->].
  cbn [is_effective_day is_after_activity_end is_before_sunrise] in *.
  apply orb_false_iff in Hquiet as [Hstop Hsr].
  rewrite ClockFacts.ge_negb_lt in Hstop. apply negb_false_iff in Hstop.
  rewrite Hstop, andb_true_r in Hday.
  set (start := Clock.mkdt (Clock.ordinal now) 6 30 0 0) in *.
  assert (Hstart : Clock.valid start).
  { unfold Clock.valid in *. simpl. lia. }
  split.
  - apply ClockFacts.ge_instant; [done | done |].
    rewrite ClockFacts.ge_negb_lt, Hsr. reflexivity.
  - assert (Hlt : Clock.lt now start = true).
    { rewrite ClockFacts.ge_negb_lt in Hday. by apply negb_false_iff in Hday. }
    apply ClockFacts.lt_instant in Hlt; [| done | done].
    unfold activity_start_instant, Clock.midnight.
    unfold Clock.instant, start in *. simpl in Hlt. lia.
Qed.

Lemma mild_no2_offset_window_witness :
  (Clock.instant (Sample.at_ 739000 6 5 0)
     ≤ Clock.instant (Sample.at_ 739000 6 10 0))%Z.
Proof.
  apply (mild_no2_offset_window (Sample.at_ 739000 6 10 0)
           (Sample.at_ 739000 6 5 0) (Sample.at_ 739000 18 40 0) 22
           {| is_after_sunset := false; is_before_sunrise := false;
              is_after_activity_end := false; is_effective_day := false |}).
  - unfold Clock.valid, Clock.MAXORDINAL; simpl; lia.
  - unfold Clock.valid, Clock.MAXORDINAL; simpl; lia.
  - reflexivity.
  - reflexivity.
  - reflexivity.
Defined.

(** X8.  An activity end outside 0..23 is not rejected at start-up, but
    [now.replace(hour=ae)] raises on every iteration: [ValueError] when
    the value still fits a C int, [OverflowError] when it does not.  The
    first iteration of such a device raises that error and its loop ends
    with it. *)
Theorem activity_end_out_of_range_stops_thread (did : string) (client : bool)
    (e : tick_env) (es : list tick_env) (w : world) (d : device_rt) :
  runtime w !! did = Some d →
  ¬ (0 ≤ activity_end d < 24)%Z →
  let x := if Clock.fits_int (activity_end d) then ValueError
           else OverflowError in
  tick did client e w = Raise x
  ∧ device_loop did client (e :: es) w = Raise x.
Proof.
  intros Hd Hae x.
  assert (Hsim : simulate did e w = Raise x).
  { unfold simulate, getitem. rewrite Hd. cbn [mbind result_bind].
    unfold regime.
    rewrite (ClockFacts.replace_Ok (now e) ACTIVITY_START_HOUR
               ACTIVITY_START_MIN)
      by (unfold ACTIVITY_START_HOUR, ACTIVITY_START_MIN; lia).
    cbn [mbind result_bind]. unfold Clock.replace. subst x.
    destruct (Clock.fits_int (activity_end d)); simpl; [| reflexivity].
    by rewrite (bool_decide_eq_false_2 _ Hae). }
  assert (Htick : tick did client e w = Raise x).
  { unfold tick. by rewrite Hsim. }
  split; [exact Htick |]. simpl. by rewrite Htick.
Qed.

Lemma activity_end_out_of_range_stops_thread_witness :
  tick "dev1" false (Sample.env_at 14 0) (world_with_end 24) = Raise ValueError
  ∧ tick "dev1" false (Sample.env_at 14 0) (world_with_end 2147483648)
    = Raise OverflowError.
Proof.
  split.
  - apply (activity_end_out_of_range_stops_thread "dev1" false
             (Sample.env_at 14 0) [] (world_with_end 24)
             (Sample.device 20 24)).
    + reflexivity.
    + simpl. lia.
  - apply (activity_end_out_of_range_stops_thread "dev1" false
             (Sample.env_at 14 0) [] (world_with_end 2147483648)
             (Sample.device 20 2147483648)).
    + reflexivity.
    + simpl. lia.
Defined.

(** X9.  Start-up takes any integer as activity end: an entry whose other
    fields convert is loaded with exactly the integer it gives, whether or
    not that is an hour of the day. *)
Theorem activity_end_is_not_range_checked (parse_float : string → option Q)
    (parse_int : string → option Z) (r : gmap string json) (z : Z) :
  r !! "activity_end" = Some (JNum (inject_Z z)) →
  (∀ k, k ∈ REQUIRED → ∃ j q, r !! k = Some j ∧ float parse_float j = Ok q) →
  ∃ d, runtime_entry parse_float parse_int r = Ok d ∧ activity_end d = z.
Proof.
  intros Hae Hreq.
  destruct (float_items_total parse_float r METRICS) as [b Hb].
  { intros k Hk. apply Hreq. unfold REQUIRED. apply elem_of_app. by left. }
  destruct (Hreq "lat") as (jlat & vlat & Hlat & Hvlat);
    [apply elem_of_app; right; by left |].
  destruct (Hreq "lon") as (jlon & vlon & Hlon & Hvlon);
    [apply elem_of_app; right; right; by left |].
  exists {| base := b; state := b; lat := vlat; lon := vlon; activity_end := z |}.
  split; [| reflexivity].
  unfold runtime_entry, getitem. rewrite Hb. simpl.
  rewrite Hlat. simpl. rewrite Hvlat. simpl.
  rewrite Hlon. simpl. rewrite Hvlon. simpl.
  rewrite Hae. simpl. by rewrite Z.quot_1_r.
Qed.

Lemma activity_end_is_not_range_checked_witness :
  ∃ d, runtime_entry Sample.no_float Sample.no_int
         (<["activity_end" := JNum (inject_Z 24)]> Sample.cairo) = Ok d
     ∧ activity_end d = 24%Z.
Proof.
  apply (activity_end_is_not_range_checked Sample.no_float Sample.no_int).
  - reflexivity.
  - intros k Hk. unfold REQUIRED, METRICS in Hk. simpl in Hk.
    rewrite !elem_of_cons, elem_of_nil in Hk.
    destruct Hk as [->|[->|[->|[->|[->|[->|[->|[->|[]]]]]]]]];
      eexists _, _; (split; [reflexivity | reflexivity]).
Defined.

(** X10.  With a midnight activity end, an iteration on the last
    representable day raises [OverflowError]: the next day does not
    exist. *)
Theorem midnight_end_overflows_on_last_day (now sunrise sunset : Clock.datetime) :
  Clock.ordinal now = Clock.MAXORDINAL →
  regime now sunrise sunset 0 = Raise OverflowError.
Proof.
  intros Hord. unfold regime, Clock.replace, Clock.add_days,
    ACTIVITY_START_HOUR, ACTIVITY_START_MIN. simpl.
  rewrite Hord. reflexivity.
Qed.

Lemma midnight_end_overflows_on_last_day_witness :
  regime (Sample.at_ 3652059 23 30 0) (Sample.at_ 3652059 6 5 0)
         (Sample.at_ 3652059 18 40 0) 0 = Raise OverflowError.
Proof.
  apply midnight_end_overflows_on_last_day. reflexivity.
Defined.

(** ** The hourly drift *)

Lemma drift_value_range (flag : bool) (v r : Q) :
  (-1000 <= drift_value flag v r)%Q ∧ (drift_value flag v r <= 10000)%Q.
Proof.
  unfold drift_value. destruct flag; cbv zeta;
    apply NumFacts.clamp_bounds; lra.
Qed.

Lemma drift_base_in_range (flag : bool) (draw : string → Q) (b : gmap string Q) :
  base_in_range (drift_base flag draw b).
Proof.
  intros k v Hk. rewrite drift_base_lookup in Hk.
  destruct (b !! k) as [v0 |]; simpl in Hk; [| discriminate].
  injection Hk as <-. apply drift_value_range.
Qed.

Lemma drift_inv (did : string) (flag : bool) (draw : string → Q)
    (rt rt' : gmap string device_rt) :
  apply_hourly_drift_for_device did flag draw rt = Ok rt' →
  ∃ d, rt !! did = Some d
     ∧ rt' = <[did := set_base (drift_base flag draw (base d)) d]> rt.
Proof.
  unfold apply_hourly_drift_for_device. intros H.
  apply bind_Ok in H as (d & Hd & H). apply getitem_Ok in Hd.
  injection H as <-. eauto.
Qed.

(** X11.  In either mode the drift leaves every baseline value of the
    device inside [-1000, 10000], whatever it was before; it keeps the
    set of keys, and touches neither the current readings of the device
    nor any other device. *)
Theorem drift_clamps_every_baseline (did : string) (flag : bool)
    (draw : string → Q) (rt rt' : gmap string device_rt) :
  apply_hourly_drift_for_device did flag draw rt = Ok rt' →
  ∃ d d', rt !! did = Some d ∧ rt' !! did = Some d'
        ∧ base_in_range (base d')
        ∧ dom (base d') = dom (base d)
        ∧ state d' = state d
        ∧ ∀ did2, did2 ≠ did → rt' !! did2 = rt !! did2.
Proof.
  intros H. apply drift_inv in H as (d & Hd & ->).
  eexists d, _. split; [exact Hd |]. split; [apply lookup_insert_eq |].
  cbn [base state set_base].
  split; [apply drift_base_in_range |].
  split; [| split; [reflexivity |]].
  - apply set_eq. intros k. rewrite !elem_of_dom, drift_base_lookup.
    by rewrite fmap_is_Some.
  - intros did2 Hne. by apply lookup_insert_ne.
Qed.

Lemma drift_clamps_every_baseline_witness :
  ∃ rt' d', apply_hourly_drift_for_device "dev3" true (λ _, 1 # 3)
              (runtime Sample.world0) = Ok rt'
          ∧ rt' !! "dev3" = Some d' ∧ base_in_range (base d').
Proof.
  destruct (drift_clamps_every_baseline "dev3" true (λ _, 1 # 3)
              (runtime Sample.world0)
              (<["dev3" := set_base (drift_base true (λ _, 1 # 3)
                                       (base (Sample.device (-100) 22)))
                             (Sample.device (-100) 22)]> (runtime Sample.world0)))
    as (d & d' & _ & Hd' & Hrange & _).
  - reflexivity.
  - eexists _, d'. exact (conj eq_refl (conj Hd' Hrange)).
Defined.

(** ** Invariants of the loop *)

(** A property of the process state that every iteration preserves holds
    after any run of the loop. *)
Lemma device_loop_invariant (did : string) (client : bool) (I : world → Prop)
    (envs : list tick_env) (w w' : world) (trace : list (list event)) :
  Forall (λ e, ∀ w1 w2 evs, I w1 → tick did client e w1 = Ok (w2, evs) → I w2)
    envs →
  I w → device_loop did client envs w = Ok (w', trace) → I w'.
Proof.
  intros Hstep. revert w trace.
  induction Hstep as [| e es He Hes IH]; intros w trace Hw H.
  - by injection H as <- <-.
  - apply device_loop_cons in H as (w1 & evs & trace' & Htick & Hloop & ->).
    eapply IH; [| exact Hloop]. eapply He; eauto.
Qed.

(** The baseline after an iteration: drifted or untouched. *)
Lemma tick_base (did : string) (client : bool) (e : tick_env) (w w' : world)
    (evs : list event) :
  tick did client e w = Ok (w', evs) →
  ∃ d d' fl last,
    runtime w !! did = Some d ∧ runtime w' !! did = Some d'
    ∧ last_drift_hour w !! did = Some last
    ∧ base d' = (if bool_decide (last ≠ Some (Clock.hour (now e)))
                 then drift_base (is_effective_day fl) (drift_draw e) (base d)
                 else base d).
Proof.
  intros H. apply tick_spec in H
    as (d & fl & last & new & Hd & _ & Hlast & _ & Hrt & _ & _ & _).
  eexists d, _, fl, last. rewrite Hrt.
  split; [done |]. split; [apply lookup_insert_eq |]. done.
Qed.

(** X14.  Once the drift has run, the baselines of a device stay inside
    [-1000, 10000] for the rest of the run: after any non-empty run that
    starts from the start-up value of [last_drift_hour], and after any
    run that starts with the baselines in range, every baseline is in
    range. *)
Theorem baseline_stays_in_range (did : string) (client : bool)
    (envs : list tick_env) (w w' : world) (trace : list (list event))
    (d : device_rt) :
  device_loop did client envs w = Ok (w', trace) →
  runtime w !! did = Some d →
  base_in_range (base d)
  ∨ (last_drift_hour w !! did = Some None ∧ envs ≠ []) →
  ∃ d', runtime w' !! did = Some d' ∧ base_in_range (base d').
Proof.
  intros Hloop Hd Hstart.
  set (I := λ w0 : world,
         ∃ d0, runtime w0 !! did = Some d0 ∧ base_in_range (base d0)).
  assert (Hstep : ∀ es, Forall (λ e, ∀ w1 w2 evs,
             I w1 → tick did client e w1 = Ok (w2, evs) → I w2) es).
  { intros es. apply Forall_forall. intros e _ w1 w2 evs (d1 & Hd1 & Hr) Htick.
    apply tick_base in Htick as (d0 & d' & fl & last & Hd0 & Hd' & _ & Hb).
    assert (d0 = d1) as -> by congruence.
    exists d'. split; [done |]. rewrite Hb.
    case_bool_decide; [apply drift_base_in_range | done]. }
  destruct Hstart as [Hr | [Hnone Hne]].
  - apply (device_loop_invariant did client I envs w w' trace); eauto.
    by exists d.
  - destruct envs as [| e es]; [done |].
    apply device_loop_cons in Hloop as (w1 & evs & trace' & Htick & Hloop & ->).
    apply (device_loop_invariant did client I es w1 w' trace'); eauto.
    apply tick_base in Htick as (d0 & d' & fl & last & Hd0 & Hd' & Hlast & Hb).
    assert (last = None) as -> by congruence.
    exists d'. split; [done |]. rewrite Hb.
    rewrite bool_decide_eq_true_2 by done. apply drift_base_in_range.
Qed.

Lemma baseline_stays_in_range_witness :
  ∃ w' trace d',
    device_loop "dev3" false [Sample.env_at 14 0; Sample.env_at 15 0]
      Sample.world0 = Ok (w', trace)
    ∧ runtime w' !! "dev3" = Some d' ∧ base_in_range (base d').
Proof.
  destruct (device_loop_total "dev3" false
              [Sample.env_at 14 0; Sample.env_at 15 0] Sample.world0)
    as (w' & trace & Hloop).
  - apply Sample_booted. rewrite !elem_of_cons. auto.
  - repeat constructor; apply Sample_clock; lia.
  - destruct (baseline_stays_in_range "dev3" false _ _ _ _
                (Sample.device (-100) 22) Hloop eq_refl) as (d' & Hd' & Hr).
    + right. split; [reflexivity | discriminate].
    + exists w', trace, d'. exact (conj Hloop (conj Hd' Hr)).
Defined.

Lemma drift_value_nonneg (flag : bool) (v r : Q) :
  (0 <= v)%Q → Num.unit_draw r → (0 <= drift_value flag v r)%Q.
Proof.
  intros Hv [Hr0 Hr1]. unfold drift_value.
  destruct flag; cbv zeta; apply NumFacts.clamp_ge;
    unfold Num.uniform; nra.
Qed.

(** X15.  A baseline without negative values never acquires one: over
    any run of the loop, in whatever order day and night drifts occur,
    the baselines of the device stay non-negative. *)
Theorem baseline_never_turns_negative (did : string) (client : bool)
    (envs : list tick_env) (w w' : world) (trace : list (list event))
    (d : device_rt) :
  Forall (λ e, ∀ k, Num.unit_draw (drift_draw e k)) envs →
  device_loop did client envs w = Ok (w', trace) →
  runtime w !! did = Some d →
  base_nonneg (base d) →
  ∃ d', runtime w' !! did = Some d' ∧ base_nonneg (base d').
Proof.
  intros Hdraws Hloop Hd Hpos.
  set (I := λ w0 : world,
         ∃ d0, runtime w0 !! did = Some d0 ∧ base_nonneg (base d0)).
  apply (device_loop_invariant did client I envs w w' trace);
    [| by exists d | done].
  eapply Forall_impl; [exact Hdraws |].
  intros e He w1 w2 evs (d1 & Hd1 & Hn) Htick. simpl in He.
  apply tick_base in Htick as (d0 & d' & fl & last & Hd0 & Hd' & _ & Hb).
  assert (d0 = d1) as -> by congruence.
  exists d'. split; [done |]. rewrite Hb.
  case_bool_decide; [| done].
  intros k v Hk. rewrite drift_base_lookup in Hk.
  destruct (base d1 !! k) as [v0 |] eqn:Hv0; simpl in Hk; [| discriminate].
  injection Hk as <-. apply drift_value_nonneg; [by eapply Hn | apply He].
Qed.

Lemma baseline_never_turns_negative_witness :
  ∃ w' trace d',
    device_loop "dev1" false [Sample.env_at 14 0; Sample.env_at 23 0]
      Sample.world0 = Ok (w', trace)
    ∧ runtime w' !! "dev1" = Some d' ∧ base_nonneg (base d').
Proof.
  destruct (device_loop_total "dev1" false
              [Sample.env_at 14 0; Sample.env_at 23 0] Sample.world0)
    as (w' & trace & Hloop).
  - apply Sample_booted. rewrite !elem_of_cons. auto.
  - repeat constructor; apply Sample_clock; lia.
  - destruct (baseline_never_turns_negative "dev1" false
                [Sample.env_at 14 0; Sample.env_at 23 0] Sample.world0
                w' trace (Sample.device 20 22)) as (d' & Hd' & Hn).
    + repeat constructor; discriminate.
    + exact Hloop.
    + reflexivity.
    + intros k v Hk. unfold Sample.device, Sample.readings in Hk.
      cbn [base] in Hk. simpl in Hk.
      repeat (rewrite lookup_insert in Hk; case_decide;
              [injection Hk as <-; discriminate |]).
      by rewrite lookup_empty in Hk.
    + exists w', trace, d'. exact (conj Hloop (conj Hd' Hn)).
Defined.

(** ** Devices do not interfere *)

(** An iteration reads only the slots of its own device, and writes them
    back the same way in any process state that agrees on those slots. *)
Lemma tick_local (did : string) (client : bool) (e : tick_env) (w w' : world)
    (evs : list event) :
  tick did client e w = Ok (w', evs) →
  ∃ d',
    runtime w' = <[did := d']> (runtime w)
    ∧ last_drift_hour w' =
        <[did := Some (Clock.hour (now e))]> (last_drift_hour w)
    ∧ regions w' = regions w
    ∧ ∀ v, runtime v !! did = runtime w !! did →
           last_drift_hour v !! did = last_drift_hour w !! did →
           regions v !! did = regions w !! did →
           ∃ v' evs',
             tick did client e v = Ok (v', evs')
             ∧ runtime v' = <[did := d']> (runtime v)
             ∧ last_drift_hour v' =
                 <[did := Some (Clock.hour (now e))]> (last_drift_hour v)
             ∧ regions v' = regions v
             ∧ drift_fired evs' = drift_fired evs.
Proof.
  intros H.
  apply tick_inv in H as (w1 & evs1 & p & evs2 & Hsim & Hsend & ->).
  pose proof (send_no_drift _ _ _ _ _ _ _ Hsend) as Hno.
  apply send_frame in Hsend as (Hrt & Hl & Hr).
  apply simulate_inv in Hsim
    as (d & fl & last & new & region & Hd & Hfl & Hlast & Hreg
        & Hnew & Hp & -> & ->).
  cbn [runtime last_drift_hour regions] in Hrt, Hl, Hr.
  assert (Hrec : ∀ (m : gmap string (option Z)),
            m !! did = Some last →
            (if bool_decide (last ≠ Some (Clock.hour (now e)))
             then <[did := Some (Clock.hour (now e))]> m else m)
            = <[did := Some (Clock.hour (now e))]> m).
  { intros m Hm. case_bool_decide as Hc; [done |].
    symmetry. apply insert_id. by rewrite Hm, Hc. }
  eexists. split; [exact Hrt |].
  split; [by rewrite Hl, (Hrec _ Hlast) |]. split; [exact Hr |].
  intros v Hvd Hvl Hvr.
  rewrite Hd in Hvd. rewrite Hlast in Hvl. rewrite Hreg in Hvr.
  pose proof (simulate_intro did e v d fl last region new p
                Hvd Hfl Hvl Hvr Hnew Hp) as Hsimv.
  unfold tick. rewrite Hsimv. cbn -[send].
  destruct (send did client e p _) as [v' evs3] eqn:Hsendv.
  pose proof (send_no_drift _ _ _ _ _ _ _ Hsendv) as Hnov.
  apply send_frame in Hsendv as (Hrtv & Hlv & Hrv).
  cbn [runtime last_drift_hour regions] in Hrtv, Hlv, Hrv.
  eexists _, _. split; [reflexivity |].
  split; [exact Hrtv |]. split; [by rewrite Hlv, (Hrec _ Hvl) |].
  split; [exact Hrv |].
  by rewrite !drift_fired_app, Hno, Hnov.
Qed.

(** A device that was ready to run stays so across an iteration of
    another device. *)
Lemma tick_keeps_others_booted (did did2 : string)
    (client : bool) (e : tick_env) (w w' : world) (evs : list event) :
  tick did client e w = Ok (w', evs) →
  did2 ≠ did → booted did2 w → booted did2 w'.
Proof.
  intros H Hne (d & Hd & Hrest).
  apply tick_local in H as (d' & Hrt & Hl & Hr & _).
  exists d. rewrite Hrt, Hl, Hr, !lookup_insert_ne by done. by split.
Qed.

(** X16.  An iteration of one device leaves every other device as it
    was: its [runtime] entry, its [last_drift_hour] slot and the whole of
    [regions] are unchanged, so a device that was ready to run still
    is. *)
Theorem tick_leaves_other_devices_alone (did did2 : string) (client : bool)
    (e : tick_env) (w w' : world) (evs : list event) :
  tick did client e w = Ok (w', evs) →
  did2 ≠ did →
  runtime w' !! did2 = runtime w !! did2
  ∧ last_drift_hour w' !! did2 = last_drift_hour w !! did2
  ∧ regions w' = regions w
  ∧ (booted did2 w → booted did2 w').
Proof.
  intros H Hne.
  apply tick_local in H as (d' & Hrt & Hl & Hr & _).
  assert (H1 : runtime w' !! did2 = runtime w !! did2)
    by (rewrite Hrt; by apply lookup_insert_ne).
  assert (H2 : last_drift_hour w' !! did2 = last_drift_hour w !! did2)
    by (rewrite Hl; by apply lookup_insert_ne).
  split; [exact H1 |]. split; [exact H2 |]. split; [exact Hr |].
  intros (d & Hd & Hrest). exists d. by rewrite H1, H2, Hr.
Qed.

Lemma tick_leaves_other_devices_alone_witness :
  ∃ w' evs,
    tick "dev1" false (Sample.env_at 14 0) Sample.world0 = Ok (w', evs)
    ∧ runtime w' !! "dev2" = runtime Sample.world0 !! "dev2".
Proof.
  destruct (tick_total "dev1" false (Sample.env_at 14 0) Sample.world0)
    as [[w' evs] Htick].
  - apply Sample_booted. rewrite !elem_of_cons. auto.
  - apply Sample_clock; lia.
  - exists w', evs. split; [exact Htick |].
    apply (tick_leaves_other_devices_alone "dev1" "dev2" false
             (Sample.env_at 14 0) Sample.world0 w' evs Htick).
    discriminate.
Defined.

(** X17.  Iterations of two different devices commute on the
    simulation state: run in the other order they both still return,
    take the same drift decisions, and leave the same [runtime] and the
    same [last_drift_hour]. *)
Theorem device_ticks_commute (did1 did2 : string) (c1 c2 : bool)
    (e1 e2 : tick_env) (w wa wab : world) (evsa evsb : list event) :
  did1 ≠ did2 →
  tick did1 c1 e1 w = Ok (wa, evsa) →
  tick did2 c2 e2 wa = Ok (wab, evsb) →
  ∃ wb wba evsb' evsa',
    tick did2 c2 e2 w = Ok (wb, evsb')
    ∧ tick did1 c1 e1 wb = Ok (wba, evsa')
    ∧ runtime wba = runtime wab
    ∧ last_drift_hour wba = last_drift_hour wab
    ∧ drift_fired evsa' = drift_fired evsa
    ∧ drift_fired evsb' = drift_fired evsb.
Proof.
  intros Hne Ha Hb.
  apply tick_local in Ha as (d1 & Hrta & Hla & Hra & Ha).
  apply tick_local in Hb as (d2 & Hrtb & Hlb & Hrb & Hb).
  destruct (Hb w) as (wb & evsb' & Htb & Hrtwb & Hlwb & Hrwb & Hfb).
  { rewrite Hrta. symmetry. by apply lookup_insert_ne. }
  { rewrite Hla. symmetry. by apply lookup_insert_ne. }
  { by rewrite Hra. }
  destruct (Ha wb) as (wba & evsa' & Hta & Hrtwba & Hlwba & _ & Hfa).
  { rewrite Hrtwb. apply lookup_insert_ne. congruence. }
  { rewrite Hlwb. apply lookup_insert_ne. congruence. }
  { by rewrite Hrwb. }
  exists wb, wba, evsb', evsa'.
  split; [exact Htb |]. split; [exact Hta |].
  split; [| split; [| done]].
  - rewrite Hrtwba, Hrtwb, Hrtb, Hrta. apply insert_insert_ne. congruence.
  - rewrite Hlwba, Hlwb, Hlb, Hla. apply insert_insert_ne. congruence.
Qed.

Lemma device_ticks_commute_witness :
  ∃ wa evsa wab evsb wb evsb',
    tick "dev1" false (Sample.env_at 14 0) Sample.world0 = Ok (wa, evsa)
    ∧ tick "dev2" false (Sample.env_at 14 1) wa = Ok (wab, evsb)
    ∧ tick "dev2" false (Sample.env_at 14 1) Sample.world0 = Ok (wb, evsb').
Proof.
  destruct (tick_total "dev1" false (Sample.env_at 14 0) Sample.world0)
    as [[wa evsa] Ha].
  { apply Sample_booted. rewrite !elem_of_cons. auto. }
  { apply Sample_clock; lia. }
  destruct (tick_total "dev2" false (Sample.env_at 14 1) wa)
    as [[wab evsb] Hb].
  { apply (tick_keeps_others_booted _ _ _ _ _ _ _ Ha);
      [discriminate |].
    apply Sample_booted. rewrite !elem_of_cons. auto. }
  { apply Sample_clock; lia. }
  destruct (device_ticks_commute "dev1" "dev2" false false
              (Sample.env_at 14 0) (Sample.env_at 14 1)
              Sample.world0 wa wab evsa evsb)
    as (wb & wba & evsb' & evsa' & Htb & _).
  { discriminate. }
  { exact Ha. }
  { exact Hb. }
  exists wa, evsa, wab, evsb, wb, evsb'.
  exact (conj Ha (conj Hb Htb)).
Defined.

(** ** The payload *)

(** Walk through a membership in an explicit list of printed lines. *)
Ltac walk_events H :=
  repeat (apply elem_of_cons in H as [H | H];
          [first [discriminate H | injection H as ?; subst] |]);
  try (by apply elem_of_nil in H).

(** The only payload the output step prints is the one it was given. *)
Lemma send_prints_its_payload (did : string) (client : bool) (e : tick_env)
    (p0 p : payload) (w w' : world) (evs : list event) :
  send did client e p0 w = (w', evs) →
  SentHub did p ∈ evs ∨ SentLocal did p ∈ evs → p = p0.
Proof.
  unfold send, log_payload.
  destruct client, (send_raises e), LOG_MODE, (log_raises e);
    intros [= <- <-] [Hin | Hin]; walk_events Hin; reflexivity.
Qed.

(** A payload printed by an iteration is the one [simulate] built. *)
Lemma sent_payload (did : string) (client : bool) (e : tick_env) (w w' : world)
    (evs : list event) (p : payload) :
  tick did client e w = Ok (w', evs) →
  SentHub did p ∈ evs ∨ SentLocal did p ∈ evs →
  ∃ w1 evs1, simulate did e w = Ok (w1, evs1, p) ∧ runtime w' = runtime w1.
Proof.
  intros H Hin.
  apply tick_inv in H as (w1 & evs1 & p0 & evs2 & Hsim & Hsend & ->).
  exists w1, evs1.
  assert (p = p0) as ->.
  { apply (send_prints_its_payload _ _ _ _ _ _ _ _ Hsend).
    pose proof Hsim as Hinv.
    apply simulate_inv in Hinv
      as (? & ? & ? & ? & ? & _ & _ & _ & _ & _ & _ & Hevs & _).
    destruct Hin as [Hin | Hin]; apply elem_of_app in Hin as [Hin | Hin];
      [| by left | | by right];
      rewrite Hevs in Hin; case_bool_decide; walk_events Hin. }
  split; [exact Hsim |]. by apply send_frame in Hsend as (-> & _ & _).
Qed.

(** X18.  Every payload an iteration prints, sends or logs reports
    exactly the six readings the iteration has just stored in the current
    state of its device, together with the id of that device, its
    activity end and the clock reading cut to whole seconds. *)
Theorem payload_reports_stored_readings (did : string) (client : bool)
    (e : tick_env) (w w' : world) (evs : list event) (p : payload) :
  tick did client e w = Ok (w', evs) →
  SentHub did p ∈ evs ∨ SentLocal did p ∈ evs →
  ∃ d', runtime w' !! did = Some d'
      ∧ state d' !! "temperature" = Some (p_temperature p)
      ∧ state d' !! "humidity" = Some (p_humidity p)
      ∧ state d' !! "co2" = Some (p_co2 p)
      ∧ state d' !! "no2" = Some (p_no2 p)
      ∧ state d' !! "pm25" = Some (p_pm25 p)
      ∧ state d' !! "pm10" = Some (p_pm10 p)
      ∧ p_deviceId p = did
      ∧ p_activity_end_hour p = activity_end d'
      ∧ p_timestamp p = to_seconds (now e).
Proof.
  intros H Hin.
  destruct (sent_payload _ _ _ _ _ _ _ H Hin) as (w1 & evs1 & Hsim & ->).
  apply simulate_inv in Hsim
    as (d & fl & last & new & region & _ & _ & _ & _ & _ & Hp & _ & ->).
  eexists. split; [apply lookup_insert_eq |].
  unfold make_payload in Hp.
  apply bind_Ok in Hp as (v1 & H1 & Hp). apply getitem_Ok in H1.
  apply bind_Ok in Hp as (v2 & H2 & Hp). apply getitem_Ok in H2.
  apply bind_Ok in Hp as (v3 & H3 & Hp). apply getitem_Ok in H3.
  apply bind_Ok in Hp as (v4 & H4 & Hp). apply getitem_Ok in H4.
  apply bind_Ok in Hp as (v5 & H5 & Hp). apply getitem_Ok in H5.
  apply bind_Ok in Hp as (v6 & H6 & Hp). apply getitem_Ok in H6.
  injection Hp as <-. cbn [p_temperature p_humidity p_co2 p_no2 p_pm25 p_pm10
    p_deviceId p_activity_end_hour p_timestamp].
  repeat split; assumption.
Qed.

Lemma payload_reports_stored_readings_witness :
  ∃ w' evs,
    tick "dev1" false (Sample.env_at 14 0) Sample.world0 = Ok (w', evs)
    ∧ ∀ p, SentLocal "dev1" p ∈ evs → p_deviceId p = "dev1".
Proof.
  destruct (tick_total "dev1" false (Sample.env_at 14 0) Sample.world0)
    as [[w' evs] Htick].
  - apply Sample_booted. rewrite !elem_of_cons. auto.
  - apply Sample_clock; lia.
  - exists w', evs. split; [exact Htick |]. intros p Hp.
    destruct (payload_reports_stored_readings "dev1" false
                (Sample.env_at 14 0) Sample.world0 w' evs p Htick
                (or_intror Hp))
      as (d' & _ & _ & _ & _ & _ & _ & _ & Hid & _).
    exact Hid.
Defined.

(** X19.  Every payload an iteration prints, sends or logs carries
    readings within the clamp bounds of their metric. *)
Theorem payload_readings_within_bounds (did : string) (client : bool)
    (e : tick_env) (w w' : world) (evs : list event) (p : payload) :
  tick did client e w = Ok (w', evs) →
  SentHub did p ∈ evs ∨ SentLocal did p ∈ evs →
  ((-50 <= p_temperature p)%Q ∧ (p_temperature p <= 70)%Q)
  ∧ ((0 <= p_humidity p)%Q ∧ (p_humidity p <= 100)%Q)
  ∧ ((150 <= p_co2 p)%Q ∧ (p_co2 p <= 5000)%Q)
  ∧ ((0 <= p_no2 p)%Q ∧ (p_no2 p <= 2000)%Q)
  ∧ ((0 <= p_pm25 p)%Q ∧ (p_pm25 p <= 2000)%Q)
  ∧ ((0 <= p_pm10 p)%Q ∧ (p_pm10 p <= 5000)%Q).
Proof.
  intros H Hin.
  destruct (sent_payload _ _ _ _ _ _ _ H Hin) as (w1 & evs1 & Hsim & _).
  apply simulate_inv in Hsim
    as (d & fl & last & new & region & _ & _ & _ & _ & Hnew & Hp & _ & _).
  apply synthesize_within in Hnew as (W1 & W2 & W3 & W4 & W5 & W6).
  apply (within_union _ (state d)) in W1, W2, W3, W4, W5, W6.
  destruct W1 as (x1 & E1 & B1), W2 as (x2 & E2 & B2), W3 as (x3 & E3 & B3),
    W4 as (x4 & E4 & B4), W5 as (x5 & E5 & B5), W6 as (x6 & E6 & B6).
  unfold make_payload, getitem in Hp. cbn [state set_state] in Hp.
  rewrite E1, E2, E3, E4, E5, E6 in Hp. simpl in Hp.
  injection Hp as <-. simpl. tauto.
Qed.

Lemma payload_readings_within_bounds_witness :
  ∃ w' evs,
    tick "dev3" false (Sample.env_at 23 30) Sample.world0 = Ok (w', evs)
    ∧ ∀ p, SentLocal "dev3" p ∈ evs → (-50 <= p_temperature p)%Q.
Proof.
  destruct (tick_total "dev3" false (Sample.env_at 23 30) Sample.world0)
    as [[w' evs] Htick].
  - apply Sample_booted. rewrite !elem_of_cons. auto.
  - apply Sample_clock; lia.
  - exists w', evs. split; [exact Htick |]. intros p Hp.
    destruct (payload_readings_within_bounds "dev3" false
                (Sample.env_at 23 30) Sample.world0 w' evs p Htick
                (or_intror Hp)) as ((Hlo & _) & _).
    exact Hlo.
Defined.

(** X20.  The [region] field of the payload is the [region_name] of the
    device's region entry when it has one, and the device id otherwise;
    the iteration does not fail on an entry without a name. *)
Theorem payload_region_falls_back_to_device_id (did : string) (client : bool)
    (e : tick_env) (w w' : world) (evs : list event) (p : payload)
    (region : gmap string json) :
  tick did client e w = Ok (w', evs) →
  SentHub did p ∈ evs ∨ SentLocal did p ∈ evs →
  regions w !! did = Some region →
  p_region p = match region !! "region_name" with
               | Some name => name
               | None => JStr did
               end.
Proof.
  intros H Hin Hreg.
  destruct (sent_payload _ _ _ _ _ _ _ H Hin) as (w1 & evs1 & Hsim & _).
  apply simulate_inv in Hsim
    as (d & fl & last & new & region0 & _ & _ & _ & Hreg0 & _ & Hp & _ & _).
  assert (region0 = region) as -> by congruence.
  unfold make_payload in Hp. peel Hp. injection Hp as <-. simpl.
  by destruct (region !! "region_name").
Qed.

Lemma payload_region_falls_back_to_device_id_witness :
  ∃ w' evs,
    tick "dev1" false (Sample.env_at 14 0) Sample.world0 = Ok (w', evs)
    ∧ ∀ p, SentLocal "dev1" p ∈ evs → p_region p = JStr "Cairo".
Proof.
  destruct (tick_total "dev1" false (Sample.env_at 14 0) Sample.world0)
    as [[w' evs] Htick].
  - apply Sample_booted. rewrite !elem_of_cons. auto.
  - apply Sample_clock; lia.
  - exists w', evs. split; [exact Htick |]. intros p Hp.
    exact (payload_region_falls_back_to_device_id "dev1" false
             (Sample.env_at 14 0) Sample.world0 w' evs p Sample.cairo Htick
             (or_intror Hp) eq_refl).
Defined.

(** ** Start-up, continued *)

Section StartupShape.

Variable parse_float : string → option Q.
Variable parse_int : string → option Z.

Lemma float_items_keys (r : gmap string json) (keys : list string)
    (m : gmap string Q) (k : string) :
  float_items parse_float r keys = Ok m → (is_Some (m !! k) ↔ k ∈ keys).
Proof.
  revert m. induction keys as [| k0 ks IH]; intros m H; simpl in H.
  - injection H as <-. rewrite lookup_empty, elem_of_nil.
    split; [by intros [? ?] | done].
  - apply bind_Ok in H as (j & _ & H). apply bind_Ok in H as (v & _ & H).
    apply bind_Ok in H as (m0 & Hm0 & H). injection H as <-.
    rewrite elem_of_cons, <- (IH m0 Hm0).
    destruct (decide (k = k0)) as [-> | Hne].
    + rewrite lookup_insert_eq. split; [by left | by eexists].
    + rewrite lookup_insert_ne by done. split; [by right | by intros [? | ?]].
Qed.

(** A loaded entry has the six baselines, and its current readings start
    as a copy of them. *)
Lemma runtime_entry_shape (r : gmap string json) (d : device_rt) :
  runtime_entry parse_float parse_int r = Ok d →
  (∀ k, is_Some (base d !! k) ↔ k ∈ METRICS) ∧ state d = base d.
Proof.
  unfold runtime_entry. intros H.
  apply bind_Ok in H as (b & Hb & H). peel H. injection H as <-.
  split; [| reflexivity]. intros k. by apply (float_items_keys r METRICS).
Qed.

(** What the loop that fills [runtime] leaves under each key. *)
Lemma load_runtime_lookup (regions : gmap string (gmap string json))
    (entries : list device_entry) (rt0 rt : gmap string device_rt)
    (did : string) :
  load_runtime parse_float parse_int regions entries rt0 = Ok rt →
  (did ∈ deviceId <$> entries →
     ∃ r d, regions !! did = Some r
          ∧ runtime_entry parse_float parse_int r = Ok d
          ∧ rt !! did = Some d)
  ∧ (did ∉ deviceId <$> entries → rt !! did = rt0 !! did).
Proof.
  revert rt0. induction entries as [| entry rest IH]; intros rt0 H; simpl in H.
  - injection H as <-. split; [| done].
    intros Hin. by apply elem_of_nil in Hin.
  - apply bind_Ok in H as (r & Hr & H). apply getitem_Ok in Hr.
    apply bind_Ok in H as (d & Hd & H).
    destruct (IH _ H) as [IHin IHout].
    rewrite fmap_cons. split.
    + intros Hin.
      destruct (decide (did ∈ deviceId <$> rest)) as [Hrest | Hrest];
        [by apply IHin |].
      apply elem_of_cons in Hin as [-> | Hin]; [| done].
      exists r, d. rewrite (IHout Hrest), lookup_insert_eq. done.
    + intros Hout. apply not_elem_of_cons in Hout as [Hne Hrest].
      rewrite (IHout Hrest). by apply lookup_insert_ne.
Qed.

(** X21.  When start-up succeeds, [runtime] has an entry for exactly the
    listed devices; each entry holds the six baselines, its current
    readings are a copy of them, its [last_drift_hour] slot is unset and
    its region entry exists.  A device whose activity end is an hour of
    the day is then ready to run. *)
Theorem startup_makes_devices_ready
    (regions : gmap string (gmap string json)) (entries : list device_entry)
    (rt : gmap string device_rt) :
  load_runtime parse_float parse_int regions entries ∅ = Ok rt →
  (∀ did, is_Some (rt !! did) ↔ did ∈ deviceId <$> entries)
  ∧ ∀ did d, rt !! did = Some d →
      (∀ k, is_Some (base d !! k) ↔ k ∈ METRICS)
      ∧ state d = base d
      ∧ initial_last_drift_hour rt !! did = Some None
      ∧ is_Some (regions !! did)
      ∧ ((0 ≤ activity_end d < 24)%Z →
         booted did {| Sim.regions := regions; runtime := rt;
                       last_drift_hour := initial_last_drift_hour rt;
                       hub := []; log_dir := ∅ |}).
Proof.
  intros H.
  assert (Hdom : ∀ did, is_Some (rt !! did) ↔ did ∈ deviceId <$> entries).
  { intros did. destruct (load_runtime_lookup _ _ _ _ did H) as [Hin Hout].
    split.
    - intros Hsome.
      destruct (decide (did ∈ deviceId <$> entries)) as [| Hno]; [done |].
      rewrite (Hout Hno), lookup_empty in Hsome. by destruct Hsome.
    - intros Hdid. destruct (Hin Hdid) as (r & d & _ & _ & ->). by eexists. }
  split; [exact Hdom |].
  intros did d Hd.
  destruct (load_runtime_lookup _ _ _ _ did H) as [Hin _].
  destruct Hin as (r & d0 & Hr & Hentry & Hd0);
    [apply Hdom; by eexists |].
  assert (d0 = d) as -> by congruence.
  destruct (runtime_entry_shape r d Hentry) as [Hkeys Hstate].
  assert (Hslot : initial_last_drift_hour rt !! did = Some None).
  { unfold initial_last_drift_hour. by rewrite lookup_fmap, Hd. }
  split; [exact Hkeys |]. split; [exact Hstate |]. split; [exact Hslot |].
  split; [by eexists |].
  intros Hae. exists d. cbn [runtime last_drift_hour Sim.regions].
  split; [exact Hd |]. split; [intros k Hk; by apply Hkeys |].
  split; [exact Hae |]. split; by eexists.
Qed.

(** The check the loop over [devices] makes for one device. *)
Lemma load_device_entries_cons (regions : gmap string (gmap string json))
    (idx : nat) (d : gmap string json) (ds : list (gmap string json))
    (entries : list device_entry) :
  load_device_entries regions idx (d :: ds) = Ok entries →
  ∃ s rest,
    d !! "deviceId" = Some (JStr s) ∧ s ≠ ""
    ∧ truthy (default JNull (d !! "connectionString")) = true
    ∧ is_Some (regions !! s)
    ∧ load_device_entries regions (S idx) ds = Ok rest
    ∧ entries = {| deviceId := s;
                   connectionString := default JNull (d !! "connectionString");
                   index := idx |} :: rest.
Proof.
  simpl. intros H.
  destruct (truthy (default JNull (d !! "deviceId"))) eqn:Hdid;
    [| discriminate].
  destruct (truthy (default JNull (d !! "connectionString"))) eqn:Hconn;
    [| discriminate].
  simpl in H.
  destruct (d !! "deviceId") as [[| | | s | |] |] eqn:Hd; simpl in *;
    try discriminate.
  destruct (regions !! s) as [r |] eqn:Hr; [| discriminate].
  apply bind_Ok in H as (rest & Hrest & H). injection H as <-.
  exists s, rest. split; [done |].
  split; [intros ->; discriminate |].
  split; [done |]. split; [by eexists |]. done.
Qed.

(** X22.  When the device list is accepted, there is one entry per
    device, in the order of the list and numbered by position; each comes
    from a device that has a non-empty string as [deviceId], a
    [connectionString] that is not empty, and a region entry under its
    id. *)
Theorem accepted_devices_are_complete
    (regions : gmap string (gmap string json))
    (devices : list (gmap string json)) (entries : list device_entry) :
  load_device_entries regions 0 devices = Ok entries →
  length entries = length devices
  ∧ ∀ i entry, entries !! i = Some entry →
      index entry = i
      ∧ deviceId entry ≠ ""
      ∧ truthy (connectionString entry) = true
      ∧ is_Some (regions !! deviceId entry)
      ∧ ∃ d, devices !! i = Some d
           ∧ d !! "deviceId" = Some (JStr (deviceId entry))
           ∧ d !! "connectionString" = Some (connectionString entry).
Proof.
  assert (Hgen : ∀ devices idx entries,
            load_device_entries regions idx devices = Ok entries →
            length entries = length devices
            ∧ ∀ i entry, entries !! i = Some entry →
                index entry = (idx + i)%nat
                ∧ deviceId entry ≠ ""
                ∧ truthy (connectionString entry) = true
                ∧ is_Some (regions !! deviceId entry)
                ∧ ∃ d, devices !! i = Some d
                     ∧ d !! "deviceId" = Some (JStr (deviceId entry))
                     ∧ d !! "connectionString" = Some (connectionString entry)).
  { clear. induction devices as [| d ds IH]; intros idx entries H.
    - injection H as <-. split; [done |]. intros i entry Hi.
      by rewrite lookup_nil in Hi.
    - apply load_device_entries_cons in H
        as (s & rest & Hs & Hne & Hconn & Hreg & Hrest & ->).
      destruct (IH _ _ Hrest) as [Hlen Hall].
      split; [simpl; by rewrite Hlen |].
      intros [| i] entry Hi; simpl in Hi.
      + injection Hi as <-. cbn [index deviceId connectionString].
        split; [lia |]. split; [done |]. split; [done |]. split; [done |].
        exists d. split; [done |]. split; [done |].
        destruct (d !! "connectionString"); [done | discriminate].
      + destruct (Hall i entry Hi) as (Hidx & H1 & H2 & H3 & H4).
        split; [lia |]. done. }
  intros H. destruct (Hgen devices 0%nat entries H) as [Hlen Hall].
  split; [exact Hlen |]. intros i entry Hi. by apply Hall.
Qed.

(** X23.  For a device list whose elements are all JSON objects and in
    which no device gives a list or an object as its id, a rejection is
    always a [ValueError]. *)
Theorem rejected_devices_raise_value_error
    (regions : gmap string (gmap string json))
    (devices : list (gmap string json)) (idx : nat) (x : exn) :
  Forall (λ d, match d !! "deviceId" with
               | Some (JArr _) | Some (JObj _) => False
               | _ => True
               end) devices →
  load_device_entries regions idx devices = Raise x →
  x = ValueError.
Proof.
  intros Hall. revert idx.
  induction Hall as [| d ds Hd Hds IH]; intros idx H; simpl in H;
    [discriminate |].
  destruct (negb _ || negb _); [by injection H as <- |].
  destruct (d !! "deviceId") as [[| | | s | |] |]; simpl in H;
    try (by injection H as <-); try done.
  destruct (regions !! s); [| by injection H as <-].
  destruct (load_device_entries regions (S idx) ds) as [rest | x0] eqn:Hrest;
    simpl in H; [discriminate |].
  injection H as <-. by apply (IH (S idx)).
Qed.

End StartupShape.

Lemma startup_makes_devices_ready_witness :
  ∃ rt d,
    load_runtime Sample.no_float Sample.no_int Sample.the_regions
      [ {| deviceId := "dev1"; connectionString := JStr "k1"; index := 0 |} ] ∅
      = Ok rt
    ∧ rt !! "dev1" = Some d ∧ state d = base d.
Proof.
  pose (rt := <["dev1" := Sample.device 20 22]> (∅ : gmap string device_rt)).
  assert (Hload : load_runtime Sample.no_float Sample.no_int Sample.the_regions
            [ {| deviceId := "dev1"; connectionString := JStr "k1";
                 index := 0 |} ] ∅ = Ok rt) by (vm_compute; reflexivity).
  destruct (startup_makes_devices_ready Sample.no_float Sample.no_int
              Sample.the_regions _ rt Hload) as [_ Hall].
  destruct (Hall "dev1" (Sample.device 20 22) eq_refl) as (_ & Hstate & _).
  exists rt, (Sample.device 20 22). exact (conj Hload (conj eq_refl Hstate)).
Defined.

Lemma accepted_devices_are_complete_witness :
  ∃ entries,
    load_device_entries Sample.the_regions 0 Sample.the_devices = Ok entries
    ∧ length entries = 3%nat.
Proof.
  destruct (load_device_entries Sample.the_regions 0 Sample.the_devices)
    as [entries | x] eqn:H; [| by vm_compute in H].
  exists entries. split; [reflexivity |].
  exact (proj1 (accepted_devices_are_complete Sample.the_regions
                  Sample.the_devices entries H)).
Defined.

Lemma rejected_devices_raise_value_error_witness :
  load_device_entries Sample.the_regions 0 broken_devices = Raise ValueError.
Proof.
  destruct (load_device_entries Sample.the_regions 0 broken_devices)
    as [entries | x] eqn:H; [by vm_compute in H |].
  f_equal.
  apply (rejected_devices_raise_value_error Sample.the_regions broken_devices
           0 x); [| exact H].
  repeat constructor.
Defined.

(** ** Starting the threads *)

Lemma stagger_value (i : nat) :
  Threads.stagger i = Some (10 * Z.of_nat (i mod 8))%Z.
Proof.
  unfold Threads.stagger, Threads.STAGGER_OFFSETS.
  change (length [0; 10; 20; 30; 40; 50; 60; 70]%Z) with 8%nat.
  pose proof (Nat.mod_upper_bound i 8 ltac:(lia)) as Hlt.
  destruct (i mod 8)%nat as [| [| [| [| [| [| [| [| n]]]]]]]];
    try reflexivity; lia.
Qed.

(** X24.  The indexing of the offset table never goes out of range:
    the thread of the [i]-th device entry starts after ten seconds times
    the remainder of [i] by eight, which is always less than the send
    interval, and the threads are started in the order of the entries. *)
Theorem stagger_offsets_cycle (entries : list Registry.device_entry) :
  ∃ threads,
    Threads.start_threads 0 entries = Some threads
    ∧ length threads = length entries
    ∧ ∀ i entry, entries !! i = Some entry →
        threads !! i = Some (entry, (10 * Z.of_nat (i mod 8))%Z)
        ∧ (0 ≤ 10 * Z.of_nat (i mod 8) < Threads.SEND_INTERVAL)%Z.
Proof.
  assert (Hgen : ∀ entries n, ∃ threads,
            Threads.start_threads n entries = Some threads
            ∧ length threads = length entries
            ∧ ∀ i entry, entries !! i = Some entry →
                threads !! i = Some (entry, (10 * Z.of_nat ((n + i) mod 8))%Z)).
  { clear. induction entries as [| entry rest IH]; intros n; simpl.
    - exists []. split; [done |]. split; [done |]. intros i e Hi.
      by rewrite lookup_nil in Hi.
    - rewrite stagger_value. simpl.
      destruct (IH (S n)) as (threads & -> & Hlen & Hall). simpl.
      eexists. split; [reflexivity |]. split; [simpl; by rewrite Hlen |].
      intros [| i] e Hi; simpl in Hi.
      + injection Hi as <-. simpl. by rewrite Nat.add_0_r.
      + replace (n + S i)%nat with (S n + i)%nat by lia.
        exact (Hall i e Hi). }
  destruct (Hgen entries 0%nat) as (threads & Hstart & Hlen & Hall).
  exists threads. split; [exact Hstart |]. split; [exact Hlen |].
  intros i entry Hi. split; [exact (Hall i entry Hi) |].
  pose proof (Nat.mod_upper_bound i 8 ltac:(lia)).
  unfold Threads.SEND_INTERVAL. lia.
Qed.

(** ** The clamp *)

(** X25.  With ordered bounds [clamp] is the projection onto the
    interval: a value inside it is returned as it is, a value below it
    gives the lower bound and a value above it the upper bound. *)
Theorem clamp_projects (v lo hi : Q) :
  (lo <= hi)%Q →
  ((lo <= v)%Q → (v <= hi)%Q → (Num.clamp v lo hi == v)%Q)
  ∧ ((v <= lo)%Q → (Num.clamp v lo hi == lo)%Q)
  ∧ ((hi <= v)%Q → (Num.clamp v lo hi == hi)%Q).
Proof.
  intros H. unfold Num.clamp.
  destruct (Q.max_spec lo (Qmin hi v)) as [[H1 E1] | [H1 E1]];
    destruct (Q.min_spec hi v) as [[H2 E2] | [H2 E2]];
    rewrite E1; rewrite ?E2 in *; repeat split; intros; lra.
Qed.

Lemma clamp_projects_witness : (Num.clamp 75 (-50) 70 == 70)%Q.
Proof.
  apply (clamp_projects 75 (-50) 70); discriminate.
Defined.

(** X26.  With the bounds the wrong way round ([hi < lo]) the clamp
    ignores its input and returns the lower bound. *)
Theorem clamp_inverted_bounds (v lo hi : Q) :
  (hi < lo)%Q → Num.clamp v lo hi = lo.
Proof.
  intros H. unfold Num.clamp, Qmax, GenericMinMax.gmax.
  destruct (Qcompare lo (Qmin hi v)) eqn:Hc; try reflexivity.
  apply Qlt_alt in Hc.
  destruct (Q.min_spec hi v) as [[_ E] | [_ E]]; rewrite E in Hc; [lra |].
  pose proof (Q.le_min_l hi v). lra.
Qed.

Lemma clamp_inverted_bounds_witness : Num.clamp 5 10 0 = 10%Q.
Proof. apply clamp_inverted_bounds. reflexivity. Defined.
